(** * Study Buddy: the chat backend (convex/chat.ts and the schema)

    A shallow embedding of the Convex functions of the chat backend and of
    the slice of the platform they are written against: the document store
    with its two tables and their indexes, the authentication lookup, the
    scheduler, the clock and the completion provider.

    Handlers are written in a state-and-exception monad over [World]; a
    thrown JavaScript value is a [Thrown]. *)

From Stdlib Require Import List String Ascii ZArith QArith Lia Bool Arith Sorted
  Relations.
Import ListNotations.

Local Open Scope Z_scope.
Local Open Scope nat_scope.
Local Open Scope list_scope.

(** ** JavaScript values the code relies on *)

Module Js.

(** What a [catch (error)] clause can receive: an [Error] object with its
    [message], or any other thrown value ([error instanceof Error] is
    false for it). *)
Inductive Thrown : Type :=
| JsError (message : string)
| JsOther.

Definition instanceof_Error (e : Thrown) : bool :=
  match e with JsError _ => true | JsOther => false end.

(** [hay.includes(needle)]: case-sensitive substring search. *)
Fixpoint includes (hay needle : string) : bool :=
  String.prefix needle hay
  || match hay with
     | EmptyString => false
     | String _ rest => includes rest needle
     end.

(** Truthiness of an optional string: [undefined], [null] and the empty
    string are falsy. *)
Definition truthy (s : option string) : bool :=
  match s with
  | None => false
  | Some EmptyString => false
  | Some (String _ _) => true
  end.

End Js.
Import Js.

(** ** The platform: documents, tables, clock, scheduler, provider log *)

Module Convex.

Definition Id := nat.

(** A row of table [conversations] of the schema, with the two system
    fields every document carries. *)
Record Conversation : Type := mkConversation {
  conv_id : Id;
  conv_creationTime : nat;
  conv_userId : Id;
  conv_title : string;
  conv_lastMessageAt : Z
}.

(** A row of table [messages] of the schema. *)
Record Message : Type := mkMessage {
  msg_id : Id;
  msg_creationTime : nat;
  msg_conversationId : Id;
  msg_userId : Id;
  msg_content : string;
  msg_role : string;
  msg_timestamp : Z
}.

(** A call handed to [ctx.scheduler.runAfter]. *)
Record Job : Type := mkJob {
  job_delay : Z;
  job_conversationId : Id
}.

(** One element of the [messages] array sent to the provider. *)
Record ChatMessage : Type := mkChatMessage {
  role : string;
  content : string
}.

(** The argument of [openai.chat.completions.create]. *)
Record CompletionRequest : Type := mkRequest {
  model : string;
  req_messages : list ChatMessage;
  max_tokens : Z;
  temperature : Q;
  presence_penalty : Q;
  frequency_penalty : Q
}.

(** The part of a completion the code reads:
    [response.choices[0]?.message?.content]. *)
Record Choice : Type := mkChoice {
  choice_message : option (option string)
}.

Inductive ProviderOutcome : Type :=
| Completed (choices : list Choice)
| Failed (error : Thrown).

Definition Provider := CompletionRequest -> ProviderOutcome.

(** Tables keep their rows in insertion order. [serial] is the stamp the
    next inserted document receives as [_id] and [_creationTime].
    [clock k] is what the k-th evaluation of [Date.now()] returns and
    [reads] counts the evaluations so far. [outbox] logs the requests
    sent to the completion provider. *)
Record World : Type := mkWorld {
  conversations : list Conversation;
  messages : list Message;
  scheduled : list Job;
  outbox : list CompletionRequest;
  serial : nat;
  clock : nat -> Z;
  reads : nat
}.

Definition with_conversations (l : list Conversation) (w : World) : World :=
  mkWorld l (messages w) (scheduled w) (outbox w) (serial w) (clock w) (reads w).
Definition with_messages (l : list Message) (w : World) : World :=
  mkWorld (conversations w) l (scheduled w) (outbox w) (serial w) (clock w) (reads w).
Definition with_scheduled (l : list Job) (w : World) : World :=
  mkWorld (conversations w) (messages w) l (outbox w) (serial w) (clock w) (reads w).
Definition with_outbox (l : list CompletionRequest) (w : World) : World :=
  mkWorld (conversations w) (messages w) (scheduled w) l (serial w) (clock w) (reads w).
Definition with_serial (n : nat) (w : World) : World :=
  mkWorld (conversations w) (messages w) (scheduled w) (outbox w) n (clock w) (reads w).
Definition with_reads (n : nat) (w : World) : World :=
  mkWorld (conversations w) (messages w) (scheduled w) (outbox w) (serial w) (clock w) n.

Definition empty_world (clk : nat -> Z) : World :=
  mkWorld [] [] [] [] 1 clk 0.

(** *** The handler monad *)

Inductive Result (A : Type) : Type :=
| Ok (a : A)
| Throw (e : Thrown).
Arguments Ok {A} a.
Arguments Throw {A} e.

Definition M (A : Type) : Type := World -> Result A * World.

Definition ret {A} (a : A) : M A := fun w => (Ok a, w).

Definition bind {A B} (m : M A) (k : A -> M B) : M B :=
  fun w =>
    match m w with
    | (Ok a, w') => k a w'
    | (Throw e, w') => (Throw e, w')
    end.

Definition throw {A} (e : Thrown) : M A := fun w => (Throw e, w).

(** [try { body } catch (error) { handler }] *)
Definition try_catch {A} (body : M A) (handler : Thrown -> M A) : M A :=
  fun w =>
    match body w with
    | (Ok a, w') => (Ok a, w')
    | (Throw e, w') => handler e w'
    end.

Definition gets {A} (f : World -> A) : M A := fun w => (Ok (f w), w).
Definition modify (f : World -> World) : M unit := fun w => (Ok tt, f w).

Definition value {A} (r : Result A * World) : Result A := fst r.
Definition world_after {A} (r : Result A * World) : World := snd r.

(** *** Request context *)

Record Ctx : Type := mkCtx { identity : option Id }.

(** [getAuthUserId(ctx)]: the caller's user id, or [null]. *)
Definition getAuthUserId (ctx : Ctx) : M (option Id) := ret (identity ctx).

(** [Date.now()] *)
Definition Date_now : M Z :=
  fun w => (Ok (clock w (reads w)), with_reads (S (reads w)) w).

(** *** The store *)

(** [ctx.db.get(id)] on table [conversations]. *)
Definition lookup_conversation (id : Id) (l : list Conversation)
  : option Conversation :=
  find (fun c => conv_id c =? id) l.

Definition db_get (id : Id) : M (option Conversation) :=
  gets (fun w => lookup_conversation id (conversations w)).

(** [ctx.db.insert("conversations", {userId, title, lastMessageAt})] *)
Definition db_insert_conversation (userId : Id) (title : string)
    (lastMessageAt : Z) : M Id :=
  fun w =>
    let n := serial w in
    (Ok n,
     with_serial (S n)
       (with_conversations
          (conversations w ++ [mkConversation n n userId title lastMessageAt]) w)).

(** The validator of field [role]:
    [v.union(v.literal("user"), v.literal("assistant"))]. *)
Definition role_valid (r : string) : bool :=
  (r =? "user")%string || (r =? "assistant")%string.

(** [ctx.db.insert("messages", {...})]; a document that does not match
    the schema is rejected. *)
Definition db_insert_message (conversationId userId : Id)
    (content role : string) (timestamp : Z) : M Id :=
  fun w =>
    if role_valid role then
      let n := serial w in
      (Ok n,
       with_serial (S n)
         (with_messages
            (messages w ++
               [mkMessage n n conversationId userId content role timestamp]) w))
    else (Throw (JsError "Schema validation failed"), w).

Definition set_lastMessageAt (t : Z) (c : Conversation) : Conversation :=
  mkConversation (conv_id c) (conv_creationTime c) (conv_userId c)
    (conv_title c) t.

Definition patch_row (id : Id) (t : Z) (c : Conversation) : Conversation :=
  if conv_id c =? id then set_lastMessageAt t c else c.

(** [ctx.db.patch(id, {lastMessageAt})]; patching a missing document
    throws. *)
Definition db_patch_lastMessageAt (id : Id) (lastMessageAt : Z) : M unit :=
  fun w =>
    match lookup_conversation id (conversations w) with
    | Some _ =>
        (Ok tt,
         with_conversations
           (map (patch_row id lastMessageAt) (conversations w)) w)
    | None => (Throw (JsError "Update on nonexistent document"), w)
    end.

Inductive Order : Type := asc | desc.

Definition ordered {A} (o : Order) (l : list A) : list A :=
  match o with asc => l | desc => rev l end.

(** [query("conversations").withIndex("by_user", q => q.eq("userId", u))
     .order(o).collect()]: the index lists a user's rows by
    [_creationTime]. *)
Definition conversations_by_user (u : Id) (o : Order) : M (list Conversation) :=
  gets (fun w =>
          ordered o (filter (fun c => conv_userId c =? u) (conversations w))).

(** [query("messages").withIndex("by_conversation",
     q => q.eq("conversationId", c)).order(o).collect()] *)
Definition messages_by_conversation (c : Id) (o : Order) : M (list Message) :=
  gets (fun w =>
          ordered o (filter (fun m => msg_conversationId m =? c) (messages w))).

(** [ctx.scheduler.runAfter(delay, internal.chat.generateAIResponse,
     {conversationId})] *)
Definition scheduler_runAfter (delay : Z) (conversationId : Id) : M unit :=
  modify (fun w => with_scheduled (scheduled w ++ [mkJob delay conversationId]) w).

(** [openai.chat.completions.create(request)]: the request leaves the
    process, then the provider answers or the call throws. *)
Definition openai_create (provider : Provider) (request : CompletionRequest)
  : M (list Choice) :=
  fun w =>
    let w' := with_outbox (outbox w ++ [request]) w in
    match provider request with
    | Completed choices => (Ok choices, w')
    | Failed e => (Throw e, w')
    end.

End Convex.
Import Convex.

Declare Scope handler_scope.
Delimit Scope handler_scope with handler.
Notation "'let*' x ':=' m 'in' k" := (bind m (fun x => k))
  (at level 10, x name, m at level 100, k at level 200) : handler_scope.
Notation "m ';;' k" := (bind m (fun _ => k))
  (at level 100, k at level 200, right associativity) : handler_scope.
Local Open Scope handler_scope.

(** ** convex/chat.ts *)

Module Chat.

Local Open Scope string_scope.
Local Open Scope nat_scope.
Local Open Scope list_scope.

Definition Unauthenticated : Thrown := JsError "Not authenticated".
Definition NotFound : Thrown := JsError "Conversation not found".

Definition getConversations (ctx : Ctx) : M (list Conversation) :=
  let* userId := getAuthUserId ctx in
  match userId with
  | None => throw Unauthenticated
  | Some userId => conversations_by_user userId desc
  end.

(** [!conversation || conversation.userId !== userId] *)
Definition not_owned (conversation : option Conversation) (userId : Id) : bool :=
  match conversation with
  | None => true
  | Some c => negb (conv_userId c =? userId)
  end.

Definition getMessages (ctx : Ctx) (conversationId : Id) : M (list Message) :=
  let* userId := getAuthUserId ctx in
  match userId with
  | None => throw Unauthenticated
  | Some userId =>
      let* conversation := db_get conversationId in
      if not_owned conversation userId then throw NotFound
      else messages_by_conversation conversationId asc
  end.

Definition getMessagesForAI (conversationId : Id) : M (list Message) :=
  messages_by_conversation conversationId asc.

Definition createConversation (ctx : Ctx) (title : string) : M Id :=
  let* userId := getAuthUserId ctx in
  match userId with
  | None => throw Unauthenticated
  | Some userId =>
      let* now := Date_now in
      db_insert_conversation userId title now
  end.

Definition sendMessage (ctx : Ctx) (conversationId : Id) (content : string)
  : M unit :=
  let* userId := getAuthUserId ctx in
  match userId with
  | None => throw Unauthenticated
  | Some userId =>
      let* conversation := db_get conversationId in
      if not_owned conversation userId then throw NotFound
      else
        let* now := Date_now in
        db_insert_message conversationId userId content "user" now;;
        let* now' := Date_now in
        db_patch_lastMessageAt conversationId now';;
        scheduler_runAfter 0%Z conversationId
  end.

Definition saveAIMessage (conversationId : Id) (content : string) : M unit :=
  let* conversation := db_get conversationId in
  match conversation with
  | None => throw NotFound
  | Some conversation =>
      let* now := Date_now in
      db_insert_message conversationId (conv_userId conversation) content
        "assistant" now;;
      let* now' := Date_now in
      db_patch_lastMessageAt conversationId now'
  end.

(** The system instruction that opens every request. *)
Definition system_prompt : string :=
  "You are Study Buddy, an expert AI tutor specifically designed to help Bachelor of Arts (B.A.) students excel in their academic journey. You have extensive knowledge in:

**Core B.A. Subjects:**
- Literature (English, Comparative, World Literature)
- History (World, American, European, Ancient)
- Philosophy (Ethics, Logic, Political Philosophy)
- Psychology (Cognitive, Social, Developmental)
- Sociology (Social Theory, Research Methods)
- Political Science (Government, International Relations)
- Anthropology (Cultural, Social)
- Art History and Fine Arts
- Languages and Linguistics
- Religious Studies
- Communication Studies

**Your Expertise Includes:**
- Essay writing and structure (thesis development, argumentation, citations)
- Research methodologies and source evaluation
- Critical thinking and analysis techniques
- Study strategies and time management
- Exam preparation and test-taking strategies
- Academic writing styles (MLA, APA, Chicago)
- Discussion facilitation and debate preparation

**Your Teaching Style:**
- Break complex concepts into digestible parts
- Use examples and analogies relevant to undergraduate experience
- Provide step-by-step guidance
- Encourage critical thinking with thought-provoking questions
- Offer multiple perspectives on topics
- Be supportive and motivating
- Adapt explanations to different learning styles

**Response Guidelines:**
- Keep responses comprehensive but accessible
- Use bullet points and clear structure when helpful
- Provide specific examples and case studies
- Suggest additional resources when appropriate
- Ask follow-up questions to deepen understanding
- Maintain an encouraging, professional tone

Always tailor your responses to undergraduate-level understanding while challenging students to think critically.".

Definition system_message : ChatMessage := mkChatMessage "system" system_prompt.

(** [msg => ({ role: msg.role, content: msg.content })] *)
Definition to_chat_message (msg : Message) : ChatMessage :=
  mkChatMessage (msg_role msg) (msg_content msg).

Definition openaiMessages (history : list Message) : list ChatMessage :=
  system_message :: map to_chat_message history.

Definition completion_request (history : list Message) : CompletionRequest :=
  {| model := "gpt-4.1-nano";
     req_messages := openaiMessages history;
     max_tokens := 1500;
     temperature := 7 # 10;
     presence_penalty := 1 # 10;
     frequency_penalty := 1 # 10 |}.

(** [response.choices[0]?.message?.content] *)
Definition first_content (choices : list Choice) : option string :=
  match choices with
  | [] => None
  | c :: _ =>
      match choice_message c with
      | None => None
      | Some content => content
      end
  end.

Definition apology : string :=
  "I apologize, but I'm experiencing technical difficulties right now. ".
Definition rate_limit_advice : string :=
  "I'm currently handling many requests. Please try again in a moment.".
Definition network_advice : string :=
  "There seems to be a connection issue. Please check your internet and try again.".
Definition generic_advice : string :=
  "Please try rephrasing your question or try again in a few moments.".
Definition fallback_advice : string :=
  "Please try again in a moment, and I'll do my best to help you with your studies.".

(** The text built in the [catch] clause of [generateAIResponse]. *)
Definition errorMessage (error : Thrown) : string :=
  (apology ++
   match error with
   | JsError message =>
       if includes message "rate limit" then rate_limit_advice
       else if includes message "network" then network_advice
       else generic_advice
   | JsOther => fallback_advice
   end)%string.

Definition generateAIResponse (openai : Provider) (conversationId : Id)
  : M unit :=
  try_catch
    (let* messages := getMessagesForAI conversationId in
     let* response := openai_create openai (completion_request messages) in
     match first_content response with
     | Some aiResponse =>
         if truthy (Some aiResponse)
         then saveAIMessage conversationId aiResponse
         else throw (JsError "No response from AI")
     | None => throw (JsError "No response from AI")
     end)
    (fun error => saveAIMessage conversationId (errorMessage error)).

Record Tip : Type := mkTip {
  tip_title : string;
  tip_description : string;
  tip_category : string
}.

Definition generalTips : list Tip :=
  [ mkTip "Active Reading Strategy"
      "Use the SQ3R method: Survey, Question, Read, Recite, Review" "Reading";
    mkTip "Essay Structure"
      "Follow the classic 5-paragraph structure: Introduction, 3 body paragraphs, conclusion"
      "Writing";
    mkTip "Time Management"
      "Use the Pomodoro Technique: 25 minutes focused work, 5-minute break"
      "Study Skills";
    mkTip "Critical Thinking"
      "Always ask: What? So what? Now what? to analyze any topic deeply"
      "Analysis" ].

Definition getStudyTips (ctx : Ctx) (subject : option string) : M (list Tip) :=
  let* userId := getAuthUserId ctx in
  match userId with
  | None => throw Unauthenticated
  | Some _ => ret generalTips
  end.

Record ResourceGroup : Type := mkResourceGroup {
  group_title : string;
  resources : list string
}.

Definition academicResources : list ResourceGroup :=
  [ mkResourceGroup "Citation Guides"
      [ "MLA Style Guide - For literature and humanities";
        "APA Style Guide - For psychology and social sciences";
        "Chicago Manual of Style - For history and fine arts" ];
    mkResourceGroup "Research Databases"
      [ "JSTOR - Academic articles and books";
        "Project MUSE - Humanities and social sciences";
        "Google Scholar - Free academic search engine" ];
    mkResourceGroup "Writing Centers"
      [ "Purdue OWL - Comprehensive writing resources";
        "University Writing Centers - Local tutoring support";
        "Grammarly - Grammar and style checking" ] ].

Definition getAcademicResources (ctx : Ctx) : M (list ResourceGroup) :=
  let* userId := getAuthUserId ctx in
  match userId with
  | None => throw Unauthenticated
  | Some _ => ret academicResources
  end.

End Chat.
Import Chat.

(** ** Every defined operation, as a transition of the world *)

Inductive Call : Type :=
| GetConversations (ctx : Ctx)
| GetMessages (ctx : Ctx) (conversationId : Id)
| GetMessagesForAI (conversationId : Id)
| CreateConversation (ctx : Ctx) (title : string)
| SendMessage (ctx : Ctx) (conversationId : Id) (content : string)
| GenerateAIResponse (openai : Provider) (conversationId : Id)
| SaveAIMessage (conversationId : Id) (content : string)
| GetStudyTips (ctx : Ctx) (subject : option string)
| GetAcademicResources (ctx : Ctx).

Definition perform (call : Call) (w : World) : World :=
  match call with
  | GetConversations ctx => world_after (getConversations ctx w)
  | GetMessages ctx c => world_after (getMessages ctx c w)
  | GetMessagesForAI c => world_after (getMessagesForAI c w)
  | CreateConversation ctx title => world_after (createConversation ctx title w)
  | SendMessage ctx c content => world_after (sendMessage ctx c content w)
  | GenerateAIResponse openai c => world_after (generateAIResponse openai c w)
  | SaveAIMessage c content => world_after (saveAIMessage c content w)
  | GetStudyTips ctx subject => world_after (getStudyTips ctx subject w)
  | GetAcademicResources ctx => world_after (getAcademicResources ctx w)
  end.

Definition perform_all (calls : list Call) (w : World) : World :=
  fold_left (fun w call => perform call w) calls w.

(** [reaches w w']: some sequence of defined operations leads from [w] to
    [w']. *)
Inductive reaches (w : World) : World -> Prop :=
| reaches_here : reaches w w
| reaches_next w' call : reaches w w' -> reaches w (perform call w').

(** ** Predicates on worlds and results *)

(** Stamps of a table grow along it and stay below the next stamp. *)
Definition stamps_below (bound : nat) (stamps : list nat) : Prop :=
  StronglySorted lt stamps /\ Forall (fun n => n < bound) stamps.

Definition stamps_ok (w : World) : Prop :=
  stamps_below (serial w) (map conv_creationTime (conversations w)) /\
  stamps_below (serial w) (map msg_creationTime (messages w)).

(** The parent conversation of a message exists, has the message's owner,
    and the role is one of the two legal ones. *)
Definition message_ok (convs : list Conversation) (m : Message) : Prop :=
  (exists c, lookup_conversation (msg_conversationId m) convs = Some c /\
             conv_userId c = msg_userId m) /\
  (msg_role m = "user"%string \/ msg_role m = "assistant"%string).

Definition messages_ok (w : World) : Prop :=
  Forall (message_ok (conversations w)) (messages w).

Definition oldest_first (l : list Message) : Prop :=
  StronglySorted (fun a b => msg_creationTime a < msg_creationTime b) l.

Definition newest_created_first (l : list Conversation) : Prop :=
  StronglySorted (fun a b => conv_creationTime b < conv_creationTime a) l.

Definition newest_activity_first (l : list Conversation) : Prop :=
  StronglySorted
    (fun a b => (conv_lastMessageAt b <= conv_lastMessageAt a)%Z) l.

(** Successive readings of [Date.now()] never go back, and no conversation
    is stamped later than the next reading. *)
Definition clock_monotone (clk : nat -> Z) : Prop :=
  forall i j, i <= j -> (clk i <= clk j)%Z.

Definition timely (w : World) : Prop :=
  clock_monotone (clock w) /\
  Forall (fun c => (conv_lastMessageAt c <= clock w (reads w))%Z)
         (conversations w).

(** What no operation may touch in a conversation. *)
Definition conv_frame (c : Conversation) : Id * nat * Id * string :=
  (conv_id c, conv_creationTime c, conv_userId c, conv_title c).

(** The world after a successful [sendMessage] by [u], and after a
    successful [saveAIMessage] for a conversation owned by [u]. *)
Definition sent (cid u : Id) (content : string) (w : World) : World :=
  mkWorld
    (map (patch_row cid (clock w (S (reads w)))) (conversations w))
    (messages w ++
       [mkMessage (serial w) (serial w) cid u content "user" (clock w (reads w))])
    (scheduled w ++ [mkJob 0 cid])
    (outbox w) (S (serial w)) (clock w) (S (S (reads w))).

Definition saved (cid u : Id) (content : string) (w : World) : World :=
  mkWorld
    (map (patch_row cid (clock w (S (reads w)))) (conversations w))
    (messages w ++
       [mkMessage (serial w) (serial w) cid u content "assistant"
          (clock w (reads w))])
    (scheduled w) (outbox w) (S (serial w)) (clock w) (S (S (reads w))).

(** The world after a successful [createConversation] by [u]. *)
Definition created (u : Id) (title : string) (w : World) : World :=
  mkWorld
    (conversations w ++
       [mkConversation (serial w) (serial w) u title (clock w (reads w))])
    (messages w) (scheduled w) (outbox w) (S (serial w)) (clock w)
    (S (reads w)).

(** The elementary changes the handlers make to the world. *)
Inductive change (w : World) : World -> Prop :=
| change_created u title :
    change w (created u title w)
| change_sent cid c content :
    lookup_conversation cid (conversations w) = Some c ->
    change w (sent cid (conv_userId c) content w)
| change_saved cid c content :
    lookup_conversation cid (conversations w) = Some c ->
    change w (saved cid (conv_userId c) content w)
| change_requested request :
    change w (with_outbox (outbox w ++ [request]) w).

Definition changes : World -> World -> Prop := clos_refl_trans World change.

(** [l'] is [l] with rows appended. *)
Definition extends {A} (l l' : list A) : Prop := exists tail, l' = l ++ tail.

(** The history [generateAIResponse] reads and the text it hands to
    [saveAIMessage]. *)
Definition history (cid : Id) (w : World) : list Message :=
  filter (fun m => msg_conversationId m =? cid) (messages w).

Definition persisted_text (openai : Provider) (cid : Id) (w : World) : string :=
  match openai (completion_request (history cid w)) with
  | Completed choices =>
      match first_content choices with
      | Some (String a s) => String a s
      | _ => errorMessage (JsError "No response from AI")
      end
  | Failed e => errorMessage e
  end.

(** ** A worked session *)

Module Session.

Local Open Scope string_scope.

Definition wall_clock (k : nat) : Z := (1700000000000 + Z.of_nat k)%Z.

Definition alice : Ctx := mkCtx (Some 7).
Definition bob : Ctx := mkCtx (Some 8).
Definition anonymous : Ctx := mkCtx None.

Definition tutor : Provider := fun _ => Completed [mkChoice (Some (Some "Start by..."))].
Definition offline : Provider :=
  fun _ => Failed (JsError "fetch failed: network unreachable").

Definition w0 : World := empty_world wall_clock.

(** Alice opens "Essay Help" and asks a question; the job runs. *)
Definition essay_calls : list Call :=
  [ CreateConversation alice "Essay Help";
    SendMessage alice 1 "How do I write a thesis statement?";
    GenerateAIResponse tutor 1 ].

Definition essay_world : World := perform_all essay_calls w0.

(** The world right after the conversation was opened, and after the
    question was sent. *)
Definition opened_world : World :=
  perform (CreateConversation alice "Essay Help") w0.
Definition asked_world : World :=
  perform (SendMessage alice 1 "How do I write a thesis statement?")
    opened_world.
Definition essay_help : Conversation :=
  mkConversation 1 1 7 "Essay Help" (wall_clock 0).

(** Alice opens two conversations and then writes in the older one. *)
Definition two_threads_calls : list Call :=
  [ CreateConversation alice "History";
    CreateConversation alice "Logic";
    SendMessage alice 1 "Who was Thucydides?" ].

Definition two_threads_world : World := perform_all two_threads_calls w0.

End Session.

(** ** Further invariants of the store *)

(** Identifiers handed out so far lie below the next stamp. *)
Definition ids_ok (w : World) : Prop :=
  Forall (fun c => conv_id c < serial w) (conversations w).

(** Every enqueued job has delay 0 and targets a conversation that
    exists. *)
Definition job_ok (convs : list Conversation) (j : Job) : Prop :=
  job_delay j = 0%Z /\
  exists c, lookup_conversation (job_conversationId j) convs = Some c.

Definition jobs_ok (w : World) : Prop :=
  Forall (job_ok (conversations w)) (scheduled w).

(** No message is stamped later than its conversation's last activity. *)
Definition dominated (w : World) : Prop :=
  Forall (fun m =>
            exists c,
              lookup_conversation (msg_conversationId m) (conversations w)
                = Some c /\
              (msg_timestamp m <= conv_lastMessageAt c)%Z)
         (messages w).

(** Row by row, [l'] keeps the conversations of [l] in place with a last
    activity that is not earlier. *)
Definition activity_advances (l l' : list Conversation) : Prop :=
  forall i c,
    nth_error l i = Some c ->
    exists c',
      nth_error l' i = Some c' /\
      conv_id c' = conv_id c /\
      (conv_lastMessageAt c <= conv_lastMessageAt c')%Z.

(** ** The chat view (src/App.tsx, component [ChatInterface]) *)

Module View.

Local Open Scope string_scope.
Local Open Scope nat_scope.
Local Open Scope list_scope.

(** The four [useState] cells of the component. *)
Record Ui : Type := mkUi {
  selectedConversationId : option Id;
  message : string;
  isLoading : bool;
  isTyping : bool
}.

Definition setSelectedConversationId (id : option Id) (ui : Ui) : Ui :=
  mkUi id (message ui) (isLoading ui) (isTyping ui).
Definition setMessage (s : string) (ui : Ui) : Ui :=
  mkUi (selectedConversationId ui) s (isLoading ui) (isTyping ui).
Definition setIsLoading (b : bool) (ui : Ui) : Ui :=
  mkUi (selectedConversationId ui) (message ui) b (isTyping ui).
Definition setIsTyping (b : bool) (ui : Ui) : Ui :=
  mkUi (selectedConversationId ui) (message ui) (isLoading ui) b.

(** The effect that selects the first listed conversation when none is
    selected. *)
Definition autoSelect (conversations : list Conversation) (ui : Ui) : Ui :=
  match selectedConversationId ui, conversations with
  | None, first :: _ => setSelectedConversationId (Some (conv_id first)) ui
  | _, _ => ui
  end.

(** [lastMessage.role === "user" &&
     Date.now() - lastMessage.timestamp < 30000] *)
Definition isRecentUserMessage (lastMessage : Message) (now : Z) : bool :=
  (msg_role lastMessage =? "user")%string
  && (now - msg_timestamp lastMessage <? 30000)%Z.

(** The effect that drives the typing indicator; [now] is the browser's
    [Date.now()]. *)
Definition typingEffect (messages : list Message) (now : Z) (ui : Ui) : Ui :=
  if 0 <? List.length messages then
    match nth_error messages (List.length messages - 1) with
    | Some lastMessage => setIsTyping (isRecentUserMessage lastMessage now) ui
    | None => ui
    end
  else setIsTyping false ui.

(** [handleNewConversation]; [localeDate] is what
    [new Date().toLocaleDateString()] returns. *)
Definition handleNewConversation (localeDate : string) (ctx : Ctx) (ui : Ui)
    (w : World) : Result unit * Ui * World :=
  let title := ("Study Session - " ++ localeDate)%string in
  match createConversation ctx title w with
  | (Ok conversationId, w') =>
      (Ok tt, setSelectedConversationId (Some conversationId) ui, w')
  | (Throw e, w') => (Throw e, ui, w')
  end.

Section Handlers.

(** [String.prototype.trim] *)
Variable trim : string -> string.

(** [handleSendMessage]: the guard, then [try]/[catch]/[finally] around
    the mutation. *)
Definition handleSendMessage (ctx : Ctx) (ui : Ui) (w : World) : Ui * World :=
  match selectedConversationId ui with
  | None => (ui, w)
  | Some conversationId =>
      if negb (truthy (Some (trim (message ui)))) || isLoading ui then (ui, w)
      else
        let ui1 := setIsLoading true ui in
        match sendMessage ctx conversationId (trim (message ui)) w with
        | (Ok _, w') => (setIsLoading false (setMessage EmptyString ui1), w')
        | (Throw _, w') => (setIsLoading false ui1, w')
        end
  end.

End Handlers.

(** [handleQuickPrompt] without the focus change. *)
Definition handleQuickPrompt (prompt : string) (ui : Ui) : Ui :=
  setMessage (prompt ++ " ")%string ui.

End View.


(** ** A session on a machine whose clock is set back *)

Module Rewound.

Local Open Scope string_scope.

(** Each reading of [Date.now()] is one millisecond before the last. *)
Definition clock_set_back (k : nat) : Z := (1700000000000 - Z.of_nat k)%Z.

Definition rewound_world : World :=
  perform (CreateConversation Session.alice "Essay Help")
    (empty_world clock_set_back).

Definition rewound_essay_help : Conversation :=
  mkConversation 1 1 7 "Essay Help" (clock_set_back 0).

(** A provider whose call fails the way the client library reports a
    lost connection. *)
Definition disconnected : Provider :=
  fun _ => Failed (JsError "Connection error.").

End Rewound.

Example essay_thread :
  map (fun m => (msg_role m, msg_content m))
      (match value (getMessages Session.alice 1 Session.essay_world) with
       | Ok l => l
       | Throw _ => []
       end)
  = [ ("user", "How do I write a thesis statement?"); ("assistant", "Start by...") ]%string.
Proof. vm_compute. reflexivity. Qed.

Example essay_thread_hidden_from_bob :
  value (getMessages Session.bob 1 Session.essay_world) = Throw NotFound.
Proof. vm_compute. reflexivity. Qed.

Example essay_job_enqueued :
  scheduled Session.essay_world = [mkJob 0 1].
Proof. vm_compute. reflexivity. Qed.

Example includes_examples :
  includes "429 rate limit exceeded" "rate limit" = true /\
  includes "Rate limit reached" "rate limit" = false /\
  includes "Connection error." "network" = false /\
  includes "abc" "" = true.
Proof. vm_compute. repeat split. Qed.

(** ** Substring search *)

Lemma prefix_spec (p s : string) :
  String.prefix p s = true <-> exists post, s = (p ++ post)%string.
Proof.
  revert s; induction p as [|a p IH]; intros s.
  - split; [intros _; exists s; reflexivity | intros _; destruct s; reflexivity].
  - destruct s as [|b s]; simpl.
    + split; [discriminate | intros [post H]; discriminate].
    + destruct (Ascii.ascii_dec a b) as [->|Hab].
      * rewrite IH. split; intros [post H]; exists post.
        -- now rewrite H.
        -- now injection H.
      * split; [discriminate | intros [post H]; injection H; congruence].
Qed.

(** [includes] finds exactly the occurrences of [needle] inside [hay]. *)
Lemma includes_spec (hay needle : string) :
  includes hay needle = true <->
  exists pre post, hay = (pre ++ needle ++ post)%string.
Proof.
  induction hay as [|a hay IH]; cbn [includes].
  - rewrite orb_false_r, prefix_spec. split.
    + intros [post H]. exists EmptyString, post. exact H.
    + intros [pre [post H]]. destruct pre; simpl in H.
      * exists post. exact H.
      * discriminate.
  - rewrite orb_true_iff, prefix_spec, IH. split.
    + intros [[post H] | [pre [post H]]].
      * exists EmptyString, post. exact H.
      * exists (String a pre), post. simpl. now rewrite H.
    + intros [pre [post H]]. destruct pre as [|b pre]; simpl in H.
      * left. exists post. exact H.
      * right. exists pre, post. now injection H.
Qed.

(** ** The store operations *)

Lemma lookup_patch (id id' : Id) (t : Z) (l : list Conversation) :
  lookup_conversation id' (map (patch_row id t) l)
  = option_map (patch_row id t) (lookup_conversation id' l).
Proof.
  unfold lookup_conversation.
  induction l as [|c l IH]; simpl; [reflexivity|].
  assert (E : conv_id (patch_row id t c) = conv_id c)
    by (unfold patch_row; destruct (conv_id c =? id); reflexivity).
  rewrite E. destruct (conv_id c =? id'); [reflexivity | exact IH].
Qed.

Lemma lookup_app_found (id : Id) (l l' : list Conversation) (c : Conversation) :
  lookup_conversation id l = Some c ->
  lookup_conversation id (l ++ l') = Some c.
Proof.
  unfold lookup_conversation.
  induction l as [|x l IH]; simpl; [discriminate|].
  destruct (conv_id x =? id); auto.
Qed.

Lemma lookup_found_id (id : Id) (l : list Conversation) (c : Conversation) :
  lookup_conversation id l = Some c -> In c l /\ conv_id c = id.
Proof.
  unfold lookup_conversation. intros H.
  apply find_some in H. destruct H as [Hin Heq].
  split; [exact Hin | now apply Nat.eqb_eq].
Qed.

Lemma patch_row_frame (id : Id) (t : Z) (c : Conversation) :
  conv_frame (patch_row id t c) = conv_frame c.
Proof. unfold patch_row. destruct (conv_id c =? id); reflexivity. Qed.

Lemma patch_row_other (id : Id) (t : Z) (c : Conversation) :
  conv_id c <> id -> patch_row id t c = c.
Proof.
  unfold patch_row. intros H.
  destruct (conv_id c =? id) eqn:E; [apply Nat.eqb_eq in E; contradiction | reflexivity].
Qed.

Lemma patch_row_same (id : Id) (t : Z) (c : Conversation) :
  conv_id c = id -> patch_row id t c = set_lastMessageAt t c.
Proof. unfold patch_row. intros ->. now rewrite Nat.eqb_refl. Qed.

(** ** What each handler does, path by path *)

Ltac run :=
  unfold getConversations, getMessages, getMessagesForAI, createConversation,
    sendMessage, saveAIMessage, getStudyTips, getAcademicResources,
    conversations_by_user, messages_by_conversation, db_get,
    db_insert_conversation, db_insert_message, db_patch_lastMessageAt,
    scheduler_runAfter, getAuthUserId, Date_now, bind, ret, throw, gets,
    modify, value, world_after; simpl.

(** C7: when no user is resolved from the request context, each of the six
    public functions fails with [Unauthenticated] and leaves the world as it
    was: no row inserted or patched, no job enqueued. *)
Theorem unauthenticated_calls_fail_without_writes (ctx : Ctx) (w : World) :
  identity ctx = None ->
  getConversations ctx w = (Throw Unauthenticated, w) /\
  (forall c, getMessages ctx c w = (Throw Unauthenticated, w)) /\
  (forall title, createConversation ctx title w = (Throw Unauthenticated, w)) /\
  (forall c content, sendMessage ctx c content w = (Throw Unauthenticated, w)) /\
  (forall subject, getStudyTips ctx subject w = (Throw Unauthenticated, w)) /\
  getAcademicResources ctx w = (Throw Unauthenticated, w).
Proof. intros H. run. rewrite H. repeat split. Qed.

Lemma getMessages_run (ctx : Ctx) (cid : Id) (w : World) :
  getMessages ctx cid w =
  (match identity ctx with
   | None => Throw Unauthenticated
   | Some u =>
       if not_owned (lookup_conversation cid (conversations w)) u
       then Throw NotFound
       else Ok (filter (fun m => msg_conversationId m =? cid) (messages w))
   end, w).
Proof.
  run. destruct (identity ctx) as [u|]; [|reflexivity].
  destruct (not_owned _ u); reflexivity.
Qed.

Lemma sendMessage_run (ctx : Ctx) (cid : Id) (content : string) (w : World) :
  sendMessage ctx cid content w =
  match identity ctx with
  | None => (Throw Unauthenticated, w)
  | Some u =>
      if not_owned (lookup_conversation cid (conversations w)) u
      then (Throw NotFound, w)
      else (Ok tt, sent cid u content w)
  end.
Proof.
  run. destruct (identity ctx) as [u|]; [|reflexivity].
  destruct (lookup_conversation cid (conversations w)) as [c|] eqn:E; simpl;
    [|reflexivity].
  destruct (negb (conv_userId c =? u)); [reflexivity|].
  unfold with_serial, with_messages, with_reads, with_conversations,
    with_scheduled; simpl.
  rewrite E. reflexivity.
Qed.

Lemma saveAIMessage_run (cid : Id) (content : string) (w : World) :
  saveAIMessage cid content w =
  match lookup_conversation cid (conversations w) with
  | None => (Throw NotFound, w)
  | Some c => (Ok tt, saved cid (conv_userId c) content w)
  end.
Proof.
  run. destruct (lookup_conversation cid (conversations w)) as [c|] eqn:E;
    [|reflexivity].
  unfold with_serial, with_messages, with_reads, with_conversations; simpl.
  rewrite E. reflexivity.
Qed.

Lemma createConversation_run (ctx : Ctx) (title : string) (w : World) :
  createConversation ctx title w =
  match identity ctx with
  | None => (Throw Unauthenticated, w)
  | Some u => (Ok (serial w), created u title w)
  end.
Proof. run. destruct (identity ctx); reflexivity. Qed.

Lemma getConversations_run (ctx : Ctx) (w : World) :
  getConversations ctx w =
  (match identity ctx with
   | None => Throw Unauthenticated
   | Some u => Ok (rev (filter (fun c => conv_userId c =? u) (conversations w)))
   end, w).
Proof. run. destruct (identity ctx); reflexivity. Qed.

Lemma getMessagesForAI_run (cid : Id) (w : World) :
  getMessagesForAI cid w = (Ok (history cid w), w).
Proof. reflexivity. Qed.

(** The job is one request to the provider followed by one call of
    [saveAIMessage]. *)
Lemma generateAIResponse_run (openai : Provider) (cid : Id) (w : World) :
  generateAIResponse openai cid w =
  saveAIMessage cid (persisted_text openai cid w)
    (with_outbox (outbox w ++ [completion_request (history cid w)]) w).
Proof.
  unfold generateAIResponse, try_catch, bind, openai_create, persisted_text.
  rewrite getMessagesForAI_run.
  set (w1 := with_outbox _ w).
  destruct (openai (completion_request (history cid w))) as [choices|e].
  - destruct (first_content choices) as [[|a s]|]; simpl.
    + unfold throw. reflexivity.
    + rewrite saveAIMessage_run.
      destruct (lookup_conversation cid (conversations w1)) eqn:E;
        [reflexivity|].
      rewrite saveAIMessage_run, E. reflexivity.
    + unfold throw. reflexivity.
  - reflexivity.
Qed.

Lemma persisted_text_nonempty (openai : Provider) (cid : Id) (w : World) :
  persisted_text openai cid w <> EmptyString.
Proof.
  unfold persisted_text.
  destruct (openai _) as [choices|e].
  - destruct (first_content choices) as [[|a s]|]; discriminate.
  - destruct e; discriminate.
Qed.

(** Every defined operation is a sequence of elementary changes. *)
Lemma perform_changes (call : Call) (w : World) : changes w (perform call w).
Proof.
  unfold changes.
  destruct call as [ctx|ctx c|c|ctx title|ctx c content|openai c|c content
                   |ctx subject|ctx]; unfold perform, world_after.
  - rewrite getConversations_run. apply rt_refl.
  - rewrite getMessages_run. apply rt_refl.
  - apply rt_refl.
  - rewrite createConversation_run. destruct (identity ctx); simpl.
    + apply rt_step. constructor.
    + apply rt_refl.
  - rewrite sendMessage_run. destruct (identity ctx) as [u|]; [|apply rt_refl].
    destruct (lookup_conversation c (conversations w)) as [conv|] eqn:E; simpl;
      [|apply rt_refl].
    destruct (conv_userId conv =? u) eqn:Eu; simpl; [|apply rt_refl].
    apply Nat.eqb_eq in Eu. subst u. apply rt_step. now constructor.
  - rewrite generateAIResponse_run, saveAIMessage_run.
    set (w1 := with_outbox _ w).
    assert (H1 : clos_refl_trans World change w w1)
      by (apply rt_step; constructor).
    destruct (lookup_conversation c (conversations w1)) as [conv|] eqn:E; simpl.
    + eapply rt_trans; [exact H1|]. apply rt_step. now constructor.
    + exact H1.
  - rewrite saveAIMessage_run.
    destruct (lookup_conversation c (conversations w)) as [conv|] eqn:E; simpl.
    + apply rt_step. now constructor.
    + apply rt_refl.
  - unfold getStudyTips, getAuthUserId, bind, ret, throw.
    destruct (identity ctx); apply rt_refl.
  - unfold getAcademicResources, getAuthUserId, bind, ret, throw.
    destruct (identity ctx); apply rt_refl.
Qed.

Lemma reaches_changes (w w' : World) : reaches w w' -> changes w w'.
Proof.
  induction 1 as [|w' call _ IH].
  - apply rt_refl.
  - eapply rt_trans; [exact IH | apply perform_changes].
Qed.

Lemma reaches_perform_all (calls : list Call) (w : World) :
  reaches w (perform_all calls w).
Proof.
  unfold perform_all.
  induction calls as [|call calls IH] using rev_ind; simpl.
  - constructor.
  - rewrite fold_left_app. simpl. now constructor.
Qed.

(** ** Lists that only grow, and stamps *)

Lemma extends_refl {A} (l : list A) : extends l l.
Proof. exists []. now rewrite app_nil_r. Qed.

Lemma extends_trans {A} (l1 l2 l3 : list A) :
  extends l1 l2 -> extends l2 l3 -> extends l1 l3.
Proof.
  intros [t1 ->] [t2 ->]. exists (t1 ++ t2). now rewrite app_assoc.
Qed.

Lemma extends_nth {A} (l l' : list A) (i : nat) (x : A) :
  extends l l' -> nth_error l i = Some x -> nth_error l' i = Some x.
Proof.
  intros [tail ->] H. rewrite nth_error_app1; [exact H|].
  apply nth_error_Some. congruence.
Qed.

Lemma stamps_below_weaken (n : nat) (l : list nat) :
  stamps_below n l -> stamps_below (S n) l.
Proof.
  intros [Hs Hb]. split; [exact Hs|].
  eapply Forall_impl; [|exact Hb]. simpl. lia.
Qed.

Lemma stamps_below_snoc (n : nat) (l : list nat) :
  stamps_below n l -> stamps_below (S n) (l ++ [n]).
Proof.
  intros [Hs Hb]. split.
  - induction Hs as [|x l Hs IH Hx]; simpl.
    + repeat constructor.
    + inversion Hb; subst. constructor; [now apply IH|].
      apply Forall_app. split; [exact Hx | now repeat constructor].
  - apply Forall_app. split.
    + eapply Forall_impl; [|exact Hb]. simpl. lia.
    + repeat constructor.
Qed.

Lemma sorted_filter_keys {A} (key : A -> nat) (p : A -> bool) (l : list A) :
  StronglySorted lt (map key l) ->
  StronglySorted (fun a b => key a < key b) (filter p l).
Proof.
  induction l as [|x l IH]; simpl; intros H; [constructor|].
  inversion H as [|? ? Hs Hx]; subst.
  destruct (p x); [|now apply IH].
  constructor; [now apply IH|].
  apply Forall_forall. intros y Hy. apply filter_In in Hy. destruct Hy as [Hy _].
  rewrite Forall_forall in Hx. apply Hx. now apply in_map.
Qed.

Lemma sorted_rev {A} (R : A -> A -> Prop) (l : list A) :
  StronglySorted R l -> StronglySorted (fun a b => R b a) (rev l).
Proof.
  induction 1 as [|x l Hs IH Hx]; simpl; [constructor|].
  assert (G : forall l', StronglySorted (fun a b => R b a) l' ->
                         Forall (fun y => R x y) l' ->
                         StronglySorted (fun a b => R b a) (l' ++ [x])).
  { induction l' as [|y l' IH']; simpl; intros Hl Hf.
    - repeat constructor.
    - inversion Hl; subst. inversion Hf; subst.
      constructor; [now apply IH'|].
      apply Forall_app. split; [assumption | now repeat constructor]. }
  apply G; [exact IH|].
  apply Forall_forall. intros y Hy. rewrite <- in_rev in Hy.
  rewrite Forall_forall in Hx. now apply Hx.
Qed.

Lemma map_creationTime_patch (id : Id) (t : Z) (l : list Conversation) :
  map conv_creationTime (map (patch_row id t) l) = map conv_creationTime l.
Proof.
  rewrite map_map. apply map_ext. intros c.
  unfold patch_row. destruct (conv_id c =? id); reflexivity.
Qed.

Lemma map_frame_patch (id : Id) (t : Z) (l : list Conversation) :
  map conv_frame (map (patch_row id t) l) = map conv_frame l.
Proof. rewrite map_map. apply map_ext. intros c. apply patch_row_frame. Qed.

(** ** Invariants of the elementary changes *)

Lemma change_stamps_ok (w w' : World) : change w w' -> stamps_ok w -> stamps_ok w'.
Proof.
  intros Hc [Hconv Hmsg]. destruct Hc; unfold stamps_ok; simpl.
  - rewrite map_app. simpl. split;
      [now apply stamps_below_snoc | now apply stamps_below_weaken].
  - rewrite map_creationTime_patch, map_app. simpl. split;
      [now apply stamps_below_weaken | now apply stamps_below_snoc].
  - rewrite map_creationTime_patch, map_app. simpl. split;
      [now apply stamps_below_weaken | now apply stamps_below_snoc].
  - split; assumption.
Qed.

Lemma message_ok_mono (convs convs' : list Conversation) (m : Message) :
  (forall id c, lookup_conversation id convs = Some c ->
     exists c', lookup_conversation id convs' = Some c' /\
                conv_userId c' = conv_userId c) ->
  message_ok convs m -> message_ok convs' m.
Proof.
  intros Hmono [[c [Hc Hu]] Hr]. split; [|exact Hr].
  destruct (Hmono _ _ Hc) as [c' [Hc' Hu']]. exists c'. split; congruence.
Qed.

Lemma lookup_patch_found (id id' : Id) (t : Z) (l : list Conversation)
    (c : Conversation) :
  lookup_conversation id' l = Some c ->
  exists c', lookup_conversation id' (map (patch_row id t) l) = Some c' /\
             conv_userId c' = conv_userId c.
Proof.
  intros H. rewrite lookup_patch, H. simpl. eexists. split; [reflexivity|].
  unfold patch_row. destruct (conv_id c =? id); reflexivity.
Qed.

Lemma change_messages_ok (w w' : World) :
  change w w' -> messages_ok w -> messages_ok w'.
Proof.
  intros Hc Hok. destruct Hc as [u title|cid c content Hc|cid c content Hc|request];
    unfold messages_ok in *; simpl.
  - eapply Forall_impl; [|exact Hok]. intros m. apply message_ok_mono.
    intros id c Hc. exists c. split; [now apply lookup_app_found | reflexivity].
  - apply Forall_app. split.
    + eapply Forall_impl; [|exact Hok]. intros m. apply message_ok_mono.
      intros id c0. apply lookup_patch_found.
    + constructor; [|constructor]. split; simpl.
      * now apply lookup_patch_found.
      * now left.
  - apply Forall_app. split.
    + eapply Forall_impl; [|exact Hok]. intros m. apply message_ok_mono.
      intros id c0. apply lookup_patch_found.
    + constructor; [|constructor]. split; simpl.
      * now apply lookup_patch_found.
      * now right.
  - exact Hok.
Qed.

Lemma change_messages_extend (w w' : World) :
  change w w' -> extends (messages w) (messages w').
Proof.
  intros Hc. destruct Hc; simpl;
    try apply extends_refl; eexists; reflexivity.
Qed.

Lemma change_frames_extend (w w' : World) :
  change w w' ->
  extends (map conv_frame (conversations w)) (map conv_frame (conversations w')).
Proof.
  intros Hc. destruct Hc; simpl.
  - rewrite map_app. eexists; reflexivity.
  - rewrite map_frame_patch. apply extends_refl.
  - rewrite map_frame_patch. apply extends_refl.
  - apply extends_refl.
Qed.

Lemma changes_stamps_ok (w w' : World) : changes w w' -> stamps_ok w -> stamps_ok w'.
Proof.
  induction 1 as [w w' H| |]; auto. now apply change_stamps_ok.
Qed.

Lemma changes_messages_ok (w w' : World) :
  changes w w' -> messages_ok w -> messages_ok w'.
Proof.
  induction 1 as [w w' H| |]; auto. now apply change_messages_ok.
Qed.

Lemma changes_messages_extend (w w' : World) :
  changes w w' -> extends (messages w) (messages w').
Proof.
  induction 1 as [w w' H| |].
  - now apply change_messages_extend.
  - apply extends_refl.
  - eapply extends_trans; eassumption.
Qed.

Lemma changes_frames_extend (w w' : World) :
  changes w w' ->
  extends (map conv_frame (conversations w)) (map conv_frame (conversations w')).
Proof.
  induction 1 as [w w' H| |].
  - now apply change_frames_extend.
  - apply extends_refl.
  - eapply extends_trans; eassumption.
Qed.

Lemma change_timely (w w' : World) : change w w' -> timely w -> timely w'.
Proof.
  intros Hc [Hmono Hall].
  assert (Hstep : forall k c,
            (conv_lastMessageAt c <= clock w (reads w))%Z ->
            (conv_lastMessageAt c <= clock w (k + reads w))%Z).
  { intros k c H. specialize (Hmono (reads w) (k + reads w)). lia. }
  assert (Hpatch : forall cid,
            Forall (fun c => (conv_lastMessageAt c <= clock w (S (S (reads w))))%Z)
                   (map (patch_row cid (clock w (S (reads w)))) (conversations w))).
  { intros cid. apply Forall_map. eapply Forall_impl; [|exact Hall].
    intros c H. unfold patch_row. destruct (conv_id c =? cid); simpl.
    - apply Hmono. lia.
    - apply (Hstep 2). exact H. }
  destruct Hc; split; simpl; try exact Hmono; try apply Hpatch; try exact Hall.
  apply Forall_app. split.
  - eapply Forall_impl; [|exact Hall]. intros c H. apply (Hstep 1). exact H.
  - constructor; [|constructor]. simpl. apply Hmono. lia.
Qed.

Lemma changes_timely (w w' : World) : changes w w' -> timely w -> timely w'.
Proof.
  induction 1 as [w w' H| |]; auto. now apply change_timely.
Qed.

Lemma empty_world_timely (clk : nat -> Z) :
  clock_monotone clk -> timely (empty_world clk).
Proof. intros H. split; [exact H | constructor]. Qed.

Lemma wall_clock_monotone : clock_monotone Session.wall_clock.
Proof. intros i j H. unfold Session.wall_clock. lia. Qed.

Lemma empty_world_ok (clk : nat -> Z) :
  stamps_ok (empty_world clk) /\ messages_ok (empty_world clk).
Proof. repeat split; constructor. Qed.

(** ** Listing conversations *)

(** C1, as the code has it: for an authenticated user [u],
    [getConversations] returns exactly the conversations whose [userId] is
    [u], and no conversation of another user; they come newest-created
    first, in descending order of [_creationTime], which is the order of
    index [by_user] read with [order("desc")]. *)
Theorem getConversations_owned_newest_created_first
    (ctx : Ctx) (u : Id) (w : World) :
  stamps_ok w ->
  identity ctx = Some u ->
  exists l,
    getConversations ctx w = (Ok l, w) /\
    (forall c, In c l <-> In c (conversations w) /\ conv_userId c = u) /\
    newest_created_first l.
Proof.
  intros [[Hsorted _] _] Hu.
  exists (rev (filter (fun c => conv_userId c =? u) (conversations w))).
  split; [|split].
  - rewrite getConversations_run, Hu. reflexivity.
  - intros c. rewrite <- in_rev, filter_In, Nat.eqb_eq. reflexivity.
  - unfold newest_created_first.
    apply (sorted_rev (fun a b => conv_creationTime a < conv_creationTime b)).
    apply sorted_filter_keys. exact Hsorted.
Qed.

Lemma getConversations_owned_newest_created_first_witness :
  stamps_ok Session.two_threads_world /\
  identity Session.alice = Some 7 /\
  exists l,
    getConversations Session.alice Session.two_threads_world
      = (Ok l, Session.two_threads_world) /\
    (forall c, In c l <->
               In c (conversations Session.two_threads_world) /\
               conv_userId c = 7) /\
    newest_created_first l.
Proof.
  assert (H : stamps_ok Session.two_threads_world).
  { apply (changes_stamps_ok Session.w0).
    - apply reaches_changes. apply (reaches_perform_all Session.two_threads_calls).
    - apply empty_world_ok. }
  split; [exact H|]. split; [reflexivity|].
  apply (getConversations_owned_newest_created_first
           Session.alice 7 Session.two_threads_world H eq_refl).
Defined.

(** C1 as stated fails: after Alice writes in the older of her two
    conversations, the listing still puts the younger one first, although
    its last activity is the older one. *)
Lemma getConversations_not_by_last_activity :
  reaches Session.w0 Session.two_threads_world /\
  exists l,
    value (getConversations Session.alice Session.two_threads_world) = Ok l /\
    map conv_title l = ["Logic"; "History"]%string /\
    ~ newest_activity_first l.
Proof.
  split; [apply (reaches_perform_all Session.two_threads_calls)|].
  eexists. split; [vm_compute; reflexivity|]. split; [reflexivity|].
  intros H. inversion H as [|? ? _ Hfirst]; subst.
  inversion Hfirst as [|? ? Hle _]; subst.
  vm_compute in Hle. now apply Hle.
Qed.

(** ** Listing messages *)

(** C6: [getMessages] fails with [Unauthenticated] when no user is
    resolved; for a user [u] it fails with [NotFound] when the conversation
    does not exist or belongs to someone else, and otherwise returns all
    messages of the conversation, oldest first. *)
Theorem getMessages_guarded (ctx : Ctx) (cid : Id) (w : World) :
  stamps_ok w ->
  (identity ctx = None ->
     getMessages ctx cid w = (Throw Unauthenticated, w)) /\
  (forall u, identity ctx = Some u ->
     lookup_conversation cid (conversations w) = None ->
     getMessages ctx cid w = (Throw NotFound, w)) /\
  (forall u c, identity ctx = Some u ->
     lookup_conversation cid (conversations w) = Some c ->
     conv_userId c <> u ->
     getMessages ctx cid w = (Throw NotFound, w)) /\
  (forall u c, identity ctx = Some u ->
     lookup_conversation cid (conversations w) = Some c ->
     conv_userId c = u ->
     exists l,
       getMessages ctx cid w = (Ok l, w) /\
       (forall m, In m l <-> In m (messages w) /\ msg_conversationId m = cid) /\
       oldest_first l).
Proof.
  intros [_ [Hsorted _]]. rewrite getMessages_run.
  split; [|split; [|split]].
  - intros ->. reflexivity.
  - intros u -> ->. reflexivity.
  - intros u c -> -> Hne. simpl.
    apply Nat.eqb_neq in Hne. rewrite Hne. reflexivity.
  - intros u c -> -> He. simpl.
    apply Nat.eqb_eq in He. rewrite He. simpl.
    eexists. split; [reflexivity|]. split.
    + intros m. rewrite filter_In, Nat.eqb_eq. reflexivity.
    + apply sorted_filter_keys. exact Hsorted.
Qed.

Lemma essay_world_stamps_ok : stamps_ok Session.essay_world.
Proof.
  apply (changes_stamps_ok Session.w0).
  - apply reaches_changes. apply (reaches_perform_all Session.essay_calls).
  - apply empty_world_ok.
Qed.

Lemma getMessages_guarded_witness :
  stamps_ok Session.essay_world /\
  getMessages Session.anonymous 1 Session.essay_world
    = (Throw Unauthenticated, Session.essay_world) /\
  getMessages Session.alice 5 Session.essay_world
    = (Throw NotFound, Session.essay_world) /\
  getMessages Session.bob 1 Session.essay_world
    = (Throw NotFound, Session.essay_world) /\
  exists l,
    getMessages Session.alice 1 Session.essay_world
      = (Ok l, Session.essay_world) /\
    (forall m, In m l <->
               In m (messages Session.essay_world) /\ msg_conversationId m = 1) /\
    oldest_first l.
Proof.
  split; [exact essay_world_stamps_ok|].
  split; [|split; [|split]].
  - apply (getMessages_guarded Session.anonymous 1 _ essay_world_stamps_ok).
    reflexivity.
  - apply (getMessages_guarded Session.alice 5 _ essay_world_stamps_ok) with (u := 7);
      reflexivity.
  - destruct (lookup_conversation 1 (conversations Session.essay_world))
      as [c|] eqn:E; [|vm_compute in E; discriminate].
    apply (getMessages_guarded Session.bob 1 _ essay_world_stamps_ok)
      with (u := 8) (c := c); [reflexivity | exact E |].
    vm_compute in E. injection E as <-. simpl. discriminate.
  - destruct (lookup_conversation 1 (conversations Session.essay_world))
      as [c|] eqn:E; [|vm_compute in E; discriminate].
    apply (getMessages_guarded Session.alice 1 _ essay_world_stamps_ok)
      with (u := 7) (c := c); [reflexivity | exact E |].
    vm_compute in E. injection E as <-. reflexivity.
Defined.

(** C10: for the owner of a conversation the user-facing listing and the
    internal one return the same ordered list and leave the same world;
    for any caller the user-facing listing either is the internal one or
    fails its authentication or ownership check. *)
Theorem getMessages_agrees_with_getMessagesForAI
    (ctx : Ctx) (u cid : Id) (c : Conversation) (w : World) :
  identity ctx = Some u ->
  lookup_conversation cid (conversations w) = Some c ->
  conv_userId c = u ->
  getMessages ctx cid w = getMessagesForAI cid w /\
  forall ctx',
    getMessages ctx' cid w = getMessagesForAI cid w \/
    getMessages ctx' cid w = (Throw Unauthenticated, w) \/
    getMessages ctx' cid w = (Throw NotFound, w).
Proof.
  intros Hu Hc Ho. split.
  - rewrite getMessages_run, getMessagesForAI_run, Hu, Hc. simpl.
    apply Nat.eqb_eq in Ho. rewrite Ho. reflexivity.
  - intros ctx'. rewrite getMessages_run, getMessagesForAI_run.
    destruct (identity ctx') as [u'|]; [|right; left; reflexivity].
    destruct (not_owned _ u'); [right; right; reflexivity | left; reflexivity].
Qed.

Lemma getMessages_agrees_with_getMessagesForAI_witness :
  getMessages Session.alice 1 Session.asked_world
    = getMessagesForAI 1 Session.asked_world /\
  forall ctx',
    getMessages ctx' 1 Session.asked_world
      = getMessagesForAI 1 Session.asked_world \/
    getMessages ctx' 1 Session.asked_world
      = (Throw Unauthenticated, Session.asked_world) \/
    getMessages ctx' 1 Session.asked_world
      = (Throw NotFound, Session.asked_world).
Proof.
  apply (getMessages_agrees_with_getMessagesForAI Session.alice 7 1
           (set_lastMessageAt (Session.wall_clock 2) Session.essay_help)
           Session.asked_world); reflexivity.
Defined.

Lemma unauthenticated_calls_fail_without_writes_witness :
  identity Session.anonymous = None /\
  getConversations Session.anonymous Session.essay_world
    = (Throw Unauthenticated, Session.essay_world) /\
  (forall c, getMessages Session.anonymous c Session.essay_world
             = (Throw Unauthenticated, Session.essay_world)) /\
  (forall title, createConversation Session.anonymous title Session.essay_world
                 = (Throw Unauthenticated, Session.essay_world)) /\
  (forall c content, sendMessage Session.anonymous c content Session.essay_world
                     = (Throw Unauthenticated, Session.essay_world)) /\
  (forall subject, getStudyTips Session.anonymous subject Session.essay_world
                   = (Throw Unauthenticated, Session.essay_world)) /\
  getAcademicResources Session.anonymous Session.essay_world
    = (Throw Unauthenticated, Session.essay_world).
Proof.
  split; [reflexivity|].
  apply (unauthenticated_calls_fail_without_writes
           Session.anonymous Session.essay_world).
  reflexivity.
Defined.

(** ** Submit *)

(** C3, as the code has it: when [u] is authenticated and owns
    conversation [cid], [sendMessage] succeeds; it appends exactly one
    message, with role "user", owner [u] and exactly the given content; the
    conversation keeps its id, owner and title and its [lastMessageAt]
    becomes the reading of [Date.now()] taken for the patch, which is not
    below the prior value in a world whose clock never goes back; every
    other conversation row is untouched and none is added; exactly one job
    for [cid] is enqueued, with delay 0; nothing is sent to the provider. *)
Theorem sendMessage_effect
    (ctx : Ctx) (u cid : Id) (c : Conversation) (content : string) (w : World) :
  identity ctx = Some u ->
  lookup_conversation cid (conversations w) = Some c ->
  conv_userId c = u ->
  let w' := world_after (sendMessage ctx cid content w) in
  value (sendMessage ctx cid content w) = Ok tt /\
  (exists m,
     messages w' = messages w ++ [m] /\
     msg_conversationId m = cid /\ msg_userId m = u /\
     msg_role m = "user"%string /\ msg_content m = content) /\
  (exists c',
     lookup_conversation cid (conversations w') = Some c' /\
     conv_frame c' = conv_frame c /\
     conv_lastMessageAt c' = clock w (S (reads w)) /\
     (timely w -> (conv_lastMessageAt c <= conv_lastMessageAt c')%Z)) /\
  List.length (conversations w') = List.length (conversations w) /\
  (forall i c0,
     nth_error (conversations w) i = Some c0 -> conv_id c0 <> cid ->
     nth_error (conversations w') i = Some c0) /\
  scheduled w' = scheduled w ++ [mkJob 0 cid] /\
  outbox w' = outbox w.
Proof.
  intros Hu Hc Ho. unfold value, world_after.
  rewrite sendMessage_run, Hu, Hc. simpl.
  apply Nat.eqb_eq in Ho. rewrite Ho. simpl.
  split; [reflexivity|]. split; [|split; [|split; [|split; [|split]]]].
  - eexists. split; [reflexivity|]. repeat split; reflexivity.
  - destruct (lookup_found_id _ _ _ Hc) as [Hin Hid].
    exists (patch_row cid (clock w (S (reads w))) c). split; [|split; [|split]].
    + rewrite lookup_patch, Hc. reflexivity.
    + apply patch_row_frame.
    + rewrite (patch_row_same _ _ _ Hid). reflexivity.
    + intros [Hmono Hall]. rewrite (patch_row_same _ _ _ Hid). simpl.
      rewrite Forall_forall in Hall. specialize (Hall c Hin).
      specialize (Hmono (reads w) (S (reads w))). lia.
  - apply length_map.
  - intros i c0 Hi Hne. rewrite nth_error_map, Hi. simpl.
    now rewrite patch_row_other.
  - reflexivity.
  - reflexivity.
Qed.

Lemma sendMessage_effect_witness :
  let w := Session.opened_world in
  let w' := world_after (sendMessage Session.alice 1 "hello" w) in
  value (sendMessage Session.alice 1 "hello" w) = Ok tt /\
  (exists m,
     messages w' = messages w ++ [m] /\
     msg_conversationId m = 1 /\ msg_userId m = 7 /\
     msg_role m = "user"%string /\ msg_content m = "hello"%string) /\
  (exists c',
     lookup_conversation 1 (conversations w') = Some c' /\
     conv_frame c' = conv_frame Session.essay_help /\
     conv_lastMessageAt c' = Session.wall_clock 2 /\
     (timely w ->
      (conv_lastMessageAt Session.essay_help <= conv_lastMessageAt c')%Z)) /\
  List.length (conversations w') = List.length (conversations w) /\
  (forall i c0,
     nth_error (conversations w) i = Some c0 -> conv_id c0 <> 1 ->
     nth_error (conversations w') i = Some c0) /\
  scheduled w' = scheduled w ++ [mkJob 0 1] /\
  outbox w' = outbox w.
Proof.
  apply (sendMessage_effect Session.alice 7 1 Session.essay_help "hello"
           Session.opened_world); reflexivity.
Defined.

(** C3 as stated fails: on a machine whose clock was set back, a
    successful [sendMessage] by the owner lowers the conversation's
    [lastMessageAt]. *)
Lemma sendMessage_can_lower_lastMessageAt :
  identity Session.alice = Some 7 /\
  lookup_conversation 1 (conversations Rewound.rewound_world)
    = Some Rewound.rewound_essay_help /\
  conv_userId Rewound.rewound_essay_help = 7 /\
  value (sendMessage Session.alice 1 "hello" Rewound.rewound_world) = Ok tt /\
  exists c',
    lookup_conversation 1
      (conversations
         (world_after (sendMessage Session.alice 1 "hello" Rewound.rewound_world)))
      = Some c' /\
    (conv_lastMessageAt c' < conv_lastMessageAt Rewound.rewound_essay_help)%Z.
Proof.
  split; [reflexivity|]. split; [reflexivity|]. split; [reflexivity|].
  split; [vm_compute; reflexivity|].
  eexists. split; [vm_compute; reflexivity|]. vm_compute. reflexivity.
Qed.

(** ** Generate *)

(** C2: for a conversation that exists, a run of [generateAIResponse]
    returns normally whatever the provider does (an answer, no usable
    text, or a thrown value); it appends exactly one message to the
    conversation, with role "assistant" and a non-empty content, owned by
    the conversation's owner; when the provider's first choice carries a
    non-empty text, that text is the content. *)
Theorem generateAIResponse_writes_one_reply
    (openai : Provider) (cid : Id) (c : Conversation) (w : World) :
  lookup_conversation cid (conversations w) = Some c ->
  let r := generateAIResponse openai cid w in
  value r = Ok tt /\
  (exists m,
     messages (world_after r) = messages w ++ [m] /\
     msg_conversationId m = cid /\
     msg_userId m = conv_userId c /\
     msg_role m = "assistant"%string /\
     msg_content m <> EmptyString /\
     (forall choices text,
        openai (completion_request (history cid w)) = Completed choices ->
        first_content choices = Some text -> text <> EmptyString ->
        msg_content m = text)) /\
  extends (map conv_frame (conversations w))
          (map conv_frame (conversations (world_after r))).
Proof.
  intros Hc. cbv zeta. unfold value, world_after.
  rewrite generateAIResponse_run, saveAIMessage_run. simpl.
  rewrite Hc. simpl. split; [reflexivity|]. split.
  - eexists. split; [reflexivity|]. simpl. repeat split.
    + apply persisted_text_nonempty.
    + intros choices text Ho Hf Hne. unfold persisted_text.
      rewrite Ho, Hf. destruct text; [contradiction | reflexivity].
  - rewrite map_frame_patch. apply extends_refl.
Qed.

Lemma generateAIResponse_writes_one_reply_witness :
  let r := generateAIResponse Session.offline 1 Session.asked_world in
  value r = Ok tt /\
  (exists m,
     messages (world_after r) = messages Session.asked_world ++ [m] /\
     msg_conversationId m = 1 /\
     msg_userId m = 7 /\
     msg_role m = "assistant"%string /\
     msg_content m <> EmptyString /\
     (forall choices text,
        Session.offline (completion_request (history 1 Session.asked_world))
          = Completed choices ->
        first_content choices = Some text -> text <> EmptyString ->
        msg_content m = text)) /\
  extends (map conv_frame (conversations Session.asked_world))
          (map conv_frame (conversations (world_after r))).
Proof.
  apply (generateAIResponse_writes_one_reply Session.offline 1
           (set_lastMessageAt (Session.wall_clock 2) Session.essay_help)
           Session.asked_world).
  reflexivity.
Defined.

(** C4, as the code has it: when the provider call of a run of
    [generateAIResponse] throws, the one assistant message persisted
    carries the apology followed by a wording chosen by keyword from the
    thrown value: the throttling wording when it is an Error whose message
    contains "rate limit"; otherwise the connectivity wording when the
    message contains "network"; otherwise the generic wording for an Error
    and a separate fallback wording for a thrown value that is not an
    Error. In particular an Error whose message contains "network" and not
    "rate limit" gets the connectivity wording, which is none of the
    others. A connectivity failure whose message lacks the keyword falls
    under the generic wording. *)
Theorem provider_failure_wording
    (openai : Provider) (cid : Id) (c : Conversation) (e : Thrown) (w : World) :
  lookup_conversation cid (conversations w) = Some c ->
  openai (completion_request (history cid w)) = Failed e ->
  exists m,
    messages (world_after (generateAIResponse openai cid w)) = messages w ++ [m] /\
    msg_role m = "assistant"%string /\
    msg_content m =
      (apology ++
       match e with
       | JsError message =>
           if includes message "rate limit" then rate_limit_advice
           else if includes message "network" then network_advice
           else generic_advice
       | JsOther => fallback_advice
       end)%string /\
    (forall message,
       e = JsError message ->
       includes message "rate limit" = false ->
       includes message "network" = true ->
       msg_content m = (apology ++ network_advice)%string /\
       msg_content m <> (apology ++ rate_limit_advice)%string /\
       msg_content m <> (apology ++ generic_advice)%string /\
       msg_content m <> (apology ++ fallback_advice)%string).
Proof.
  intros Hc He. unfold world_after.
  rewrite generateAIResponse_run, saveAIMessage_run. simpl.
  rewrite Hc. simpl. eexists. split; [reflexivity|]. simpl.
  unfold persisted_text. rewrite He.
  split; [reflexivity|]. split; [reflexivity|].
  intros message -> Hrate Hnet. unfold errorMessage. rewrite Hrate, Hnet.
  repeat split; discriminate.
Qed.

Lemma provider_failure_wording_witness :
  exists m,
    messages (world_after (generateAIResponse Session.offline 1 Session.asked_world))
      = messages Session.asked_world ++ [m] /\
    msg_role m = "assistant"%string /\
    msg_content m = (apology ++ network_advice)%string.
Proof.
  destruct (provider_failure_wording Session.offline 1
              (set_lastMessageAt (Session.wall_clock 2) Session.essay_help)
              (JsError "fetch failed: network unreachable")
              Session.asked_world eq_refl eq_refl)
    as [m [Hm [Hr [Hc _]]]].
  exists m. split; [exact Hm|]. split; [exact Hr|]. exact Hc.
Defined.

(** C4 as stated fails: the connection failure of the client library,
    whose message is "Connection error.", contains neither keyword; the
    run persists the generic wording, not the connectivity one. *)
Lemma connection_error_gets_generic_wording :
  includes "Connection error." "network" = false /\
  exists m,
    messages
      (world_after
         (generateAIResponse Rewound.disconnected 1 Session.asked_world))
      = messages Session.asked_world ++ [m] /\
    msg_role m = "assistant"%string /\
    msg_content m = (apology ++ generic_advice)%string /\
    msg_content m <> (apology ++ network_advice)%string.
Proof.
  split; [reflexivity|].
  eexists. split; [vm_compute; reflexivity|].
  split; [reflexivity|]. split; [reflexivity|]. discriminate.
Qed.

(** C5: a run of [generateAIResponse] sends exactly one request to the
    provider; its messages are the fixed system instruction followed by
    the conversation's history in order, each with its role and content
    unchanged; the model identifier, the output bound 1500, temperature
    0.7 and both penalties 0.1 are constants. *)
Theorem generateAIResponse_request (openai : Provider) (cid : Id) (w : World) :
  exists request,
    outbox (world_after (generateAIResponse openai cid w)) = outbox w ++ [request] /\
    value (getMessagesForAI cid w) = Ok (history cid w) /\
    req_messages request =
      mkChatMessage "system" system_prompt ::
      map (fun m => mkChatMessage (msg_role m) (msg_content m)) (history cid w) /\
    model request = "gpt-4.1-nano"%string /\
    max_tokens request = 1500%Z /\
    temperature request = 7 # 10 /\
    presence_penalty request = 1 # 10 /\
    frequency_penalty request = 1 # 10.
Proof.
  exists (completion_request (history cid w)).
  split; [|repeat split].
  unfold world_after. rewrite generateAIResponse_run, saveAIMessage_run.
  simpl. destruct (lookup_conversation cid (conversations w)); reflexivity.
Qed.

(** A completion without usable text is handled as a failure with the
    generic wording. *)
Lemma empty_response_wording
    (openai : Provider) (cid : Id) (choices : list Choice) (w : World) :
  openai (completion_request (history cid w)) = Completed choices ->
  truthy (first_content choices) = false ->
  persisted_text openai cid w = (apology ++ generic_advice)%string.
Proof.
  intros Ho Ht. unfold persisted_text. rewrite Ho.
  destruct (first_content choices) as [[|a s]|]; [reflexivity | discriminate | reflexivity].
Qed.

(** [createConversation] by an authenticated user appends one conversation
    with that owner, the given title and the current time. *)
Lemma createConversation_effect (ctx : Ctx) (u : Id) (title : string) (w : World) :
  identity ctx = Some u ->
  exists c,
    createConversation ctx title w = (Ok (conv_id c), created u title w) /\
    conversations (created u title w) = conversations w ++ [c] /\
    conv_userId c = u /\ conv_title c = title /\
    conv_lastMessageAt c = clock w (reads w).
Proof.
  intros Hu. rewrite createConversation_run, Hu.
  eexists. split; [|split; [reflexivity|]]; repeat split.
Qed.

(** ** Invariants *)

(** C8: along any sequence of defined operations, every stored message
    keeps a parent conversation that exists and has the message's owner,
    and a role that is "user" or "assistant"; the rows of table [messages]
    are only ever appended to: an existing message is never edited or
    removed. *)
Theorem messages_invariant (w w' : World) :
  reaches w w' ->
  messages_ok w ->
  messages_ok w' /\ extends (messages w) (messages w').
Proof.
  intros Hr Hok. apply reaches_changes in Hr. split.
  - now apply (changes_messages_ok w).
  - now apply changes_messages_extend.
Qed.

Lemma messages_invariant_witness :
  messages_ok Session.essay_world /\
  extends (messages Session.w0) (messages Session.essay_world).
Proof.
  apply (messages_invariant Session.w0 Session.essay_world).
  - apply (reaches_perform_all Session.essay_calls).
  - apply empty_world_ok.
Defined.

(** C9: along any sequence of defined operations a conversation stays at
    its place in the table with its id, creation stamp, owner and title
    unchanged; only [lastMessageAt] may differ, and no conversation is
    removed. *)
Theorem conversation_frame_preserved
    (w w' : World) (i : nat) (c : Conversation) :
  reaches w w' ->
  nth_error (conversations w) i = Some c ->
  exists c',
    nth_error (conversations w') i = Some c' /\
    conv_id c' = conv_id c /\
    conv_creationTime c' = conv_creationTime c /\
    conv_userId c' = conv_userId c /\
    conv_title c' = conv_title c.
Proof.
  intros Hr Hi. apply reaches_changes, changes_frames_extend in Hr.
  assert (Hf : nth_error (map conv_frame (conversations w')) i
               = Some (conv_frame c)).
  { apply (extends_nth _ _ _ _ Hr). rewrite nth_error_map, Hi. reflexivity. }
  rewrite nth_error_map in Hf.
  destruct (nth_error (conversations w') i) as [c'|]; [|discriminate].
  exists c'. split; [reflexivity|].
  unfold conv_frame in Hf. simpl in Hf. injection Hf as H1 H2 H3 H4.
  repeat split; assumption.
Qed.

Lemma conversation_frame_preserved_witness :
  exists c',
    nth_error (conversations Session.essay_world) 0 = Some c' /\
    conv_id c' = 1 /\
    conv_creationTime c' = 1 /\
    conv_userId c' = 7 /\
    conv_title c' = "Essay Help"%string.
Proof.
  apply (conversation_frame_preserved Session.opened_world Session.essay_world
           0 Session.essay_help).
  - unfold Session.essay_world, Session.essay_calls, Session.opened_world,
      perform_all.
    cbn [fold_left]. apply reaches_next, reaches_next, reaches_here.
  - reflexivity.
Defined.

(** ** Further properties of the handlers *)

Lemma changes_invariant (P : World -> Prop) :
  (forall w w', change w w' -> P w -> P w') ->
  forall w w', changes w w' -> P w -> P w'.
Proof.
  intros Hstep w w' H. induction H as [w w' H| |]; auto. now apply Hstep.
Qed.

Lemma lookup_fresh (n : nat) (l : list Conversation) :
  Forall (fun c => conv_id c < n) l -> lookup_conversation n l = None.
Proof.
  unfold lookup_conversation. induction 1 as [|c l Hc _ IH]; simpl; [reflexivity|].
  destruct (conv_id c =? n) eqn:E; [apply Nat.eqb_eq in E; lia | exact IH].
Qed.

Lemma lookup_app_missing (id : Id) (l l' : list Conversation) :
  lookup_conversation id l = None ->
  lookup_conversation id (l ++ l') = lookup_conversation id l'.
Proof.
  unfold lookup_conversation. induction l as [|x l IH]; simpl; [reflexivity|].
  destruct (conv_id x =? id); [discriminate | exact IH].
Qed.

Lemma history_sent (cid cid' u : Id) (content : string) (w : World) :
  history cid' (sent cid u content w) =
  history cid' w ++
    (if cid =? cid'
     then [mkMessage (serial w) (serial w) cid u content "user" (clock w (reads w))]
     else []).
Proof. unfold history. simpl. rewrite filter_app. reflexivity. Qed.

Lemma history_saved (cid cid' u : Id) (content : string) (w : World) :
  history cid' (saved cid u content w) =
  history cid' w ++
    (if cid =? cid'
     then [mkMessage (serial w) (serial w) cid u content "assistant"
             (clock w (reads w))]
     else []).
Proof. unfold history. simpl. rewrite filter_app. reflexivity. Qed.

Lemma not_owned_false (cid u : Id) (c : Conversation) (l : list Conversation) :
  lookup_conversation cid l = Some c -> conv_userId c = u ->
  not_owned (lookup_conversation cid l) u = false.
Proof. intros -> <-. simpl. now rewrite Nat.eqb_refl. Qed.

Lemma lookup_sent (cid u : Id) (content : string) (c : Conversation) (w : World) :
  lookup_conversation cid (conversations w) = Some c ->
  lookup_conversation cid (conversations (sent cid u content w))
  = Some (set_lastMessageAt (clock w (S (reads w))) c).
Proof.
  intros H. simpl. rewrite lookup_patch, H. simpl.
  destruct (lookup_found_id _ _ _ H) as [_ Hid].
  now rewrite (patch_row_same _ _ _ Hid).
Qed.

(** X1: an authenticated caller who names a conversation that does not
    exist, or that belongs to someone else, gets [NotFound] from
    [sendMessage]; nothing is written, stamped or enqueued. *)
Theorem sendMessage_not_found
    (ctx : Ctx) (u cid : Id) (content : string) (w : World) :
  identity ctx = Some u ->
  (lookup_conversation cid (conversations w) = None \/
   exists c, lookup_conversation cid (conversations w) = Some c /\
             conv_userId c <> u) ->
  sendMessage ctx cid content w = (Throw NotFound, w).
Proof.
  intros Hu H. rewrite sendMessage_run, Hu.
  destruct H as [->|[c [-> Hne]]]; simpl; [reflexivity|].
  apply Nat.eqb_neq in Hne. now rewrite Hne.
Qed.

Lemma sendMessage_not_found_witness :
  sendMessage Session.bob 1 "let me in" Session.essay_world
    = (Throw NotFound, Session.essay_world) /\
  sendMessage Session.alice 9 "anyone?" Session.essay_world
    = (Throw NotFound, Session.essay_world).
Proof.
  split.
  - apply (sendMessage_not_found Session.bob 8 1); [reflexivity|].
    right. exists (set_lastMessageAt (Session.wall_clock 4) Session.essay_help).
    split; [vm_compute; reflexivity | simpl; discriminate].
  - apply (sendMessage_not_found Session.alice 7 9); [reflexivity|].
    left. reflexivity.
Defined.

(** X2: for a conversation that does not exist, [saveAIMessage] throws
    [NotFound] and writes nothing; a run of [generateAIResponse] then still
    sends its request to the provider, but its handler's second call of
    [saveAIMessage] throws as well, so the run ends with [NotFound]
    raised and no message written. *)
Theorem generateAIResponse_missing_conversation
    (openai : Provider) (cid : Id) (content : string) (w : World) :
  lookup_conversation cid (conversations w) = None ->
  saveAIMessage cid content w = (Throw NotFound, w) /\
  generateAIResponse openai cid w =
    (Throw NotFound,
     with_outbox (outbox w ++ [completion_request (history cid w)]) w).
Proof.
  intros H. split.
  - rewrite saveAIMessage_run, H. reflexivity.
  - rewrite generateAIResponse_run, saveAIMessage_run. simpl. rewrite H.
    reflexivity.
Qed.

Lemma generateAIResponse_missing_conversation_witness :
  saveAIMessage 9 "hello" Session.essay_world
    = (Throw NotFound, Session.essay_world) /\
  generateAIResponse Session.tutor 9 Session.essay_world =
    (Throw NotFound,
     with_outbox (outbox Session.essay_world ++
                    [completion_request (history 9 Session.essay_world)])
       Session.essay_world).
Proof.
  apply (generateAIResponse_missing_conversation Session.tutor 9 "hello"
           Session.essay_world).
  reflexivity.
Defined.

Lemma change_ids_ok (w w' : World) : change w w' -> ids_ok w -> ids_ok w'.
Proof.
  intros Hc Hok. unfold ids_ok in *.
  assert (Hup : Forall (fun c => conv_id c < S (serial w)) (conversations w))
    by (eapply Forall_impl; [|exact Hok]; simpl; lia).
  assert (Hpatch : forall cid t,
            Forall (fun c => conv_id c < S (serial w))
                   (map (patch_row cid t) (conversations w))).
  { intros cid t. apply Forall_map. eapply Forall_impl; [|exact Hup].
    intros c H. unfold patch_row. destruct (conv_id c =? cid); exact H. }
  destruct Hc; simpl; try apply Hpatch; try exact Hok.
  apply Forall_app. split; [exact Hup|]. constructor; [simpl; lia | constructor].
Qed.

Lemma no_history_for_fresh_id (w : World) :
  ids_ok w -> messages_ok w -> history (serial w) w = [].
Proof.
  intros Hids Hok. unfold history.
  apply (lookup_fresh (serial w)) in Hids.
  induction Hok as [|m l [[c [Hc _]] _] _ IH]; simpl; [reflexivity|].
  destruct (msg_conversationId m =? serial w) eqn:E; [|exact IH].
  apply Nat.eqb_eq in E. congruence.
Qed.

(** X3: in a store whose identifiers were all handed out by the store,
    [createConversation] by an authenticated user returns an identifier no
    conversation had before; looking it up afterwards gives a conversation
    with that owner, the given title and the current time; the owner's
    listing is the new conversation followed by the previous listing, and
    the new conversation has no messages. *)
Theorem createConversation_round_trip
    (ctx : Ctx) (u : Id) (title : string) (w : World) :
  identity ctx = Some u ->
  ids_ok w ->
  messages_ok w ->
  let r := createConversation ctx title w in
  let w' := world_after r in
  exists id c,
    value r = Ok id /\
    lookup_conversation id (conversations w) = None /\
    lookup_conversation id (conversations w') = Some c /\
    conv_id c = id /\ conv_userId c = u /\ conv_title c = title /\
    conv_lastMessageAt c = clock w (reads w) /\
    (exists rest,
       value (getConversations ctx w) = Ok rest /\
       getConversations ctx w' = (Ok (c :: rest), w')) /\
    getMessages ctx id w' = (Ok [], w').
Proof.
  intros Hu Hids Hok. cbv zeta. unfold value, world_after.
  rewrite createConversation_run, Hu. simpl.
  pose proof (lookup_fresh _ _ Hids) as Hfresh.
  exists (serial w), (mkConversation (serial w) (serial w) u title (clock w (reads w))).
  split; [reflexivity|]. split; [exact Hfresh|]. split.
  { rewrite lookup_app_missing by exact Hfresh.
    unfold lookup_conversation. simpl. now rewrite Nat.eqb_refl. }
  do 4 (split; [reflexivity|]). split.
  - eexists. rewrite !getConversations_run, Hu. simpl. split; [reflexivity|].
    rewrite filter_app, rev_app_distr. simpl. rewrite Nat.eqb_refl. reflexivity.
  - rewrite getMessages_run, Hu. simpl.
    rewrite lookup_app_missing by exact Hfresh.
    unfold lookup_conversation. simpl. rewrite !Nat.eqb_refl. simpl.
    fold (history (serial w) w).
    rewrite Nat.eqb_refl, no_history_for_fresh_id by assumption. reflexivity.
Qed.

Lemma essay_world_ids_ok : ids_ok Session.essay_world.
Proof.
  apply (changes_invariant ids_ok change_ids_ok Session.w0).
  - apply reaches_changes. apply (reaches_perform_all Session.essay_calls).
  - constructor.
Qed.

Lemma essay_world_messages_ok : messages_ok Session.essay_world.
Proof.
  apply (changes_messages_ok Session.w0).
  - apply reaches_changes. apply (reaches_perform_all Session.essay_calls).
  - apply empty_world_ok.
Qed.

Lemma createConversation_round_trip_witness :
  let r := createConversation Session.alice "Logic" Session.essay_world in
  let w' := world_after r in
  exists id c,
    value r = Ok id /\
    lookup_conversation id (conversations Session.essay_world) = None /\
    lookup_conversation id (conversations w') = Some c /\
    conv_id c = id /\ conv_userId c = 7 /\ conv_title c = "Logic"%string /\
    conv_lastMessageAt c
      = clock Session.essay_world (reads Session.essay_world) /\
    (exists rest,
       value (getConversations Session.alice Session.essay_world) = Ok rest /\
       getConversations Session.alice w' = (Ok (c :: rest), w')) /\
    getMessages Session.alice id w' = (Ok [], w').
Proof.
  apply (createConversation_round_trip Session.alice 7 "Logic"
           Session.essay_world eq_refl essay_world_ids_ok
           essay_world_messages_ok).
Defined.

(** X4: after a successful [sendMessage] the owner's listing of that
    conversation is the previous listing followed by the new message, which
    carries role "user", the given content and the time of the call. *)
Theorem sendMessage_then_getMessages
    (ctx : Ctx) (u cid : Id) (c : Conversation) (content : string) (w : World) :
  identity ctx = Some u ->
  lookup_conversation cid (conversations w) = Some c ->
  conv_userId c = u ->
  let w' := world_after (sendMessage ctx cid content w) in
  exists l m,
    getMessages ctx cid w = (Ok l, w) /\
    getMessages ctx cid w' = (Ok (l ++ [m]), w') /\
    msg_role m = "user"%string /\ msg_content m = content /\
    msg_userId m = u /\ msg_timestamp m = clock w (reads w).
Proof.
  intros Hu Hc Ho. cbv zeta. unfold world_after.
  rewrite sendMessage_run, Hu, (not_owned_false _ _ _ _ Hc Ho). simpl snd.
  exists (history cid w). eexists. split; [|split].
  - rewrite getMessages_run, Hu, (not_owned_false _ _ _ _ Hc Ho). reflexivity.
  - rewrite getMessages_run, Hu.
    rewrite (not_owned_false cid u _ _ (lookup_sent cid u content c w Hc)) by exact Ho.
    fold (history cid (sent cid u content w)).
    rewrite history_sent, Nat.eqb_refl. reflexivity.
  - repeat split.
Qed.

Lemma sendMessage_then_getMessages_witness :
  let w' := world_after (sendMessage Session.alice 1 "hello" Session.opened_world) in
  exists l m,
    getMessages Session.alice 1 Session.opened_world
      = (Ok l, Session.opened_world) /\
    getMessages Session.alice 1 w' = (Ok (l ++ [m]), w') /\
    msg_role m = "user"%string /\ msg_content m = "hello"%string /\
    msg_userId m = 7 /\
    msg_timestamp m = clock Session.opened_world (reads Session.opened_world).
Proof.
  apply (sendMessage_then_getMessages Session.alice 7 1 Session.essay_help
           "hello" Session.opened_world); reflexivity.
Defined.

(** X5: writing to one conversation leaves the listing of every other
    conversation as it was, whether the write is a [sendMessage], a
    [saveAIMessage] or a whole run of [generateAIResponse], and whether or
    not it succeeds. *)
Theorem other_conversations_unaffected
    (ctx : Ctx) (openai : Provider) (cid cid' : Id) (content : string)
    (w : World) :
  cid' <> cid ->
  value (getMessagesForAI cid' (world_after (sendMessage ctx cid content w)))
    = value (getMessagesForAI cid' w) /\
  value (getMessagesForAI cid' (world_after (saveAIMessage cid content w)))
    = value (getMessagesForAI cid' w) /\
  value (getMessagesForAI cid'
           (world_after (generateAIResponse openai cid w)))
    = value (getMessagesForAI cid' w).
Proof.
  intros Hne. apply Nat.eqb_neq in Hne. rewrite Nat.eqb_sym in Hne.
  unfold value, world_after. rewrite !getMessagesForAI_run. simpl.
  assert (Hsave : forall text w0,
            history cid' (snd (saveAIMessage cid text w0)) = history cid' w0).
  { intros text w0. rewrite saveAIMessage_run.
    destruct (lookup_conversation cid (conversations w0)); simpl; [|reflexivity].
    rewrite history_saved, Hne. apply app_nil_r. }
  split; [|split].
  - rewrite sendMessage_run. destruct (identity ctx) as [u|]; [|reflexivity].
    destruct (not_owned _ u); simpl; [reflexivity|].
    rewrite history_sent, Hne. now rewrite app_nil_r.
  - now rewrite Hsave.
  - rewrite generateAIResponse_run. now rewrite Hsave.
Qed.

Lemma other_conversations_unaffected_witness :
  value (getMessagesForAI 1
           (world_after (sendMessage Session.alice 2 "hi" Session.two_threads_world)))
    = value (getMessagesForAI 1 Session.two_threads_world) /\
  value (getMessagesForAI 1
           (world_after (saveAIMessage 2 "hi" Session.two_threads_world)))
    = value (getMessagesForAI 1 Session.two_threads_world) /\
  value (getMessagesForAI 1
           (world_after (generateAIResponse Session.tutor 2
                           Session.two_threads_world)))
    = value (getMessagesForAI 1 Session.two_threads_world).
Proof.
  apply (other_conversations_unaffected Session.alice Session.tutor 2 1 "hi"
           Session.two_threads_world).
  discriminate.
Defined.

Lemma not_owned_patch (cid id u : Id) (t : Z) (l : list Conversation) :
  not_owned (lookup_conversation cid (map (patch_row id t) l)) u
  = not_owned (lookup_conversation cid l) u.
Proof.
  rewrite lookup_patch. destruct (lookup_conversation cid l) as [c|]; simpl;
    [|reflexivity].
  unfold patch_row. destruct (conv_id c =? id); reflexivity.
Qed.

Lemma job_ok_mono (convs convs' : list Conversation) (j : Job) :
  (forall id c, lookup_conversation id convs = Some c ->
     exists c', lookup_conversation id convs' = Some c' /\
                conv_userId c' = conv_userId c) ->
  job_ok convs j -> job_ok convs' j.
Proof.
  intros Hmono [Hd [c Hc]]. split; [exact Hd|].
  destruct (Hmono _ _ Hc) as [c' [Hc' _]]. now exists c'.
Qed.

Lemma change_jobs_ok (w w' : World) : change w w' -> jobs_ok w -> jobs_ok w'.
Proof.
  intros Hc Hok.
  destruct Hc as [u title|cid c content Hc|cid c content Hc|request];
    unfold jobs_ok in *; simpl.
  - eapply Forall_impl; [|exact Hok]. intros j. apply job_ok_mono.
    intros id c Hc. exists c. split; [now apply lookup_app_found | reflexivity].
  - apply Forall_app. split.
    + eapply Forall_impl; [|exact Hok]. intros j. apply job_ok_mono.
      intros id c0. apply lookup_patch_found.
    + constructor; [|constructor]. split; [reflexivity|]. simpl.
      destruct (lookup_patch_found cid cid (clock w (S (reads w))) _ _ Hc)
        as [c' [Hc' _]]. now exists c'.
  - eapply Forall_impl; [|exact Hok]. intros j. apply job_ok_mono.
    intros id c0. apply lookup_patch_found.
  - exact Hok.
Qed.

(** X6: every job that the defined operations ever enqueue has delay 0
    and names a conversation that still exists, so running it with any
    provider returns normally and appends one assistant message to that
    conversation. *)
Theorem scheduled_jobs_run (w w' : World) (j : Job) (openai : Provider) :
  reaches w w' ->
  jobs_ok w ->
  In j (scheduled w') ->
  let r := generateAIResponse openai (job_conversationId j) w' in
  job_delay j = 0%Z /\
  value r = Ok tt /\
  exists m,
    messages (world_after r) = messages w' ++ [m] /\
    msg_conversationId m = job_conversationId j /\
    msg_role m = "assistant"%string.
Proof.
  intros Hr Hok Hj. cbv zeta.
  apply reaches_changes in Hr.
  apply (changes_invariant jobs_ok change_jobs_ok _ _ Hr) in Hok.
  unfold jobs_ok in Hok. rewrite Forall_forall in Hok.
  destruct (Hok j Hj) as [Hd [c Hc]]. split; [exact Hd|].
  unfold value, world_after.
  rewrite generateAIResponse_run, saveAIMessage_run. simpl. rewrite Hc. simpl.
  split; [reflexivity|]. eexists. repeat split.
Qed.

Lemma scheduled_jobs_run_witness :
  let r := generateAIResponse Session.offline 1 Session.essay_world in
  (0 = 0)%Z /\
  value r = Ok tt /\
  exists m,
    messages (world_after r) = messages Session.essay_world ++ [m] /\
    msg_conversationId m = 1 /\
    msg_role m = "assistant"%string.
Proof.
  apply (scheduled_jobs_run Session.w0 Session.essay_world (mkJob 0 1)
           Session.offline).
  - apply (reaches_perform_all Session.essay_calls).
  - constructor.
  - vm_compute. left. reflexivity.
Defined.

(** X7: in a store that satisfies the message invariant, everything a
    successful [getMessages] returns belongs to the requested conversation
    and is owned by the caller: no message of another user is ever
    listed. *)
Theorem getMessages_only_own
    (ctx : Ctx) (u cid : Id) (l : list Message) (w : World) :
  messages_ok w ->
  identity ctx = Some u ->
  value (getMessages ctx cid w) = Ok l ->
  forall m, In m l -> msg_conversationId m = cid /\ msg_userId m = u.
Proof.
  intros Hok Hu Hl m Hm. unfold value in Hl.
  rewrite getMessages_run, Hu in Hl. simpl in Hl.
  destruct (lookup_conversation cid (conversations w)) as [c|] eqn:Hc;
    simpl in Hl; [|discriminate].
  destruct (conv_userId c =? u) eqn:Ho; simpl in Hl; [|discriminate].
  apply Nat.eqb_eq in Ho. injection Hl as <-.
  apply filter_In in Hm. destruct Hm as [Hin Hcid].
  apply Nat.eqb_eq in Hcid. split; [exact Hcid|].
  unfold messages_ok in Hok. rewrite Forall_forall in Hok.
  destruct (Hok m Hin) as [[c' [Hc' Hu']] _].
  rewrite Hcid, Hc in Hc'. injection Hc' as <-. congruence.
Qed.

Lemma getMessages_only_own_witness :
  value (getMessages Session.alice 1 Session.essay_world)
    = Ok (history 1 Session.essay_world) /\
  forall m, In m (history 1 Session.essay_world) ->
            msg_conversationId m = 1 /\ msg_userId m = 7.
Proof.
  assert (H : value (getMessages Session.alice 1 Session.essay_world)
              = Ok (history 1 Session.essay_world))
    by (vm_compute; reflexivity).
  split; [exact H|].
  apply (getMessages_only_own Session.alice 7 1 (history 1 Session.essay_world)
           Session.essay_world essay_world_messages_ok eq_refl H).
Defined.

(** X8: in a store that satisfies the message invariant, the request of
    a run of [generateAIResponse] carries the system instruction once, at
    its head; every other element repeats the role and content of a stored
    message of the very conversation the job runs for, and none of them has
    role "system". *)
Theorem request_holds_only_this_conversation
    (openai : Provider) (cid : Id) (w : World) :
  messages_ok w ->
  exists request tail,
    outbox (world_after (generateAIResponse openai cid w))
      = outbox w ++ [request] /\
    req_messages request = system_message :: tail /\
    List.length tail = List.length (history cid w) /\
    forall cm, In cm tail ->
      role cm <> "system"%string /\
      exists m, In m (messages w) /\ msg_conversationId m = cid /\
                role cm = msg_role m /\ content cm = msg_content m.
Proof.
  intros Hok.
  exists (completion_request (history cid w)),
         (map to_chat_message (history cid w)).
  split; [|split; [reflexivity|split; [apply length_map|]]].
  - unfold world_after. rewrite generateAIResponse_run, saveAIMessage_run.
    simpl. destruct (lookup_conversation cid (conversations w)); reflexivity.
  - intros cm Hcm. apply in_map_iff in Hcm. destruct Hcm as [m [<- Hm]].
    unfold history in Hm. apply filter_In in Hm. destruct Hm as [Hin Hcid].
    apply Nat.eqb_eq in Hcid.
    unfold messages_ok in Hok. rewrite Forall_forall in Hok.
    destruct (Hok m Hin) as [_ Hrole]. split.
    + simpl. destruct Hrole as [-> | ->]; discriminate.
    + exists m. repeat split; assumption.
Qed.

Lemma request_holds_only_this_conversation_witness :
  exists request tail,
    outbox (world_after (generateAIResponse Session.tutor 1 Session.asked_world))
      = outbox Session.asked_world ++ [request] /\
    req_messages request = system_message :: tail /\
    List.length tail = List.length (history 1 Session.asked_world) /\
    forall cm, In cm tail ->
      role cm <> "system"%string /\
      exists m, In m (messages Session.asked_world) /\
                msg_conversationId m = 1 /\
                role cm = msg_role m /\ content cm = msg_content m.
Proof.
  apply (request_holds_only_this_conversation Session.tutor 1
           Session.asked_world).
  apply (changes_messages_ok Session.opened_world).
  - apply perform_changes.
  - apply (changes_messages_ok Session.w0).
    + apply perform_changes.
    + apply empty_world_ok.
Defined.

Lemma timely_row (w : World) (c : Conversation) :
  timely w -> In c (conversations w) ->
  (conv_lastMessageAt c <= clock w (S (reads w)))%Z /\
  (clock w (reads w) <= clock w (S (reads w)))%Z.
Proof.
  intros [Hmono Hall] Hin. rewrite Forall_forall in Hall.
  specialize (Hall c Hin). specialize (Hmono (reads w) (S (reads w))). lia.
Qed.

Lemma dominated_patch (w : World) (cid : Id) (m : Message) :
  timely w ->
  (exists c, lookup_conversation (msg_conversationId m) (conversations w)
             = Some c /\ (msg_timestamp m <= conv_lastMessageAt c)%Z) ->
  exists c,
    lookup_conversation (msg_conversationId m)
      (map (patch_row cid (clock w (S (reads w)))) (conversations w)) = Some c /\
    (msg_timestamp m <= conv_lastMessageAt c)%Z.
Proof.
  intros Ht [c [Hc Hle]]. rewrite lookup_patch, Hc. simpl.
  eexists. split; [reflexivity|].
  destruct (lookup_found_id _ _ _ Hc) as [Hin _].
  destruct (timely_row w c Ht Hin) as [H1 _].
  unfold patch_row. destruct (conv_id c =? cid); simpl; lia.
Qed.

Lemma dominated_new (w : World) (cid : Id) (c : Conversation) :
  timely w ->
  lookup_conversation cid (conversations w) = Some c ->
  exists c',
    lookup_conversation cid
      (map (patch_row cid (clock w (S (reads w)))) (conversations w)) = Some c' /\
    (clock w (reads w) <= conv_lastMessageAt c')%Z.
Proof.
  intros Ht Hc. rewrite lookup_patch, Hc. simpl. eexists. split; [reflexivity|].
  destruct (lookup_found_id _ _ _ Hc) as [Hin Hid].
  destruct (timely_row w c Ht Hin) as [_ H2].
  rewrite (patch_row_same _ _ _ Hid). simpl. exact H2.
Qed.

Lemma change_dominated (w w' : World) :
  change w w' -> timely w /\ dominated w -> timely w' /\ dominated w'.
Proof.
  intros Hc [Ht Hd]. split; [now apply (change_timely w)|].
  destruct Hc as [u title|cid c content Hc|cid c content Hc|request];
    unfold dominated in *; simpl.
  - eapply Forall_impl; [|exact Hd]. intros m [c [Hc Hle]].
    exists c. split; [now apply lookup_app_found | exact Hle].
  - apply Forall_app. split.
    + eapply Forall_impl; [|exact Hd]. intros m. now apply dominated_patch.
    + constructor; [|constructor]. simpl. now apply (dominated_new w cid c).
  - apply Forall_app. split.
    + eapply Forall_impl; [|exact Hd]. intros m. now apply dominated_patch.
    + constructor; [|constructor]. simpl. now apply (dominated_new w cid c).
  - exact Hd.
Qed.

(** X9: with a clock that never goes back, the defined operations keep
    every message's timestamp at or below the [lastMessageAt] of its
    conversation. *)
Theorem lastMessageAt_dominates_timestamps (w w' : World) :
  reaches w w' ->
  timely w ->
  dominated w ->
  dominated w'.
Proof.
  intros Hr Ht Hd. apply reaches_changes in Hr.
  apply (changes_invariant (fun w => timely w /\ dominated w)
           change_dominated _ _ Hr).
  now split.
Qed.

Lemma lastMessageAt_dominates_timestamps_witness : dominated Session.essay_world.
Proof.
  apply (lastMessageAt_dominates_timestamps Session.w0 Session.essay_world).
  - apply (reaches_perform_all Session.essay_calls).
  - apply empty_world_timely, wall_clock_monotone.
  - constructor.
Defined.

Lemma activity_advances_refl (l : list Conversation) : activity_advances l l.
Proof. intros i c H. exists c. repeat split; [exact H | lia]. Qed.

Lemma activity_advances_trans (l1 l2 l3 : list Conversation) :
  activity_advances l1 l2 -> activity_advances l2 l3 -> activity_advances l1 l3.
Proof.
  intros H12 H23 i c Hc.
  destruct (H12 i c Hc) as [c2 [Hc2 [Hid2 Hle2]]].
  destruct (H23 i c2 Hc2) as [c3 [Hc3 [Hid3 Hle3]]].
  exists c3. repeat split; [exact Hc3 | congruence | lia].
Qed.

Lemma activity_advances_patch (w : World) (cid : Id) :
  timely w ->
  activity_advances (conversations w)
    (map (patch_row cid (clock w (S (reads w)))) (conversations w)).
Proof.
  intros Ht i c Hc. rewrite nth_error_map, Hc. simpl.
  eexists. split; [reflexivity|].
  destruct (timely_row w c Ht (nth_error_In _ _ Hc)) as [H1 _].
  unfold patch_row. destruct (conv_id c =? cid); simpl; split; try reflexivity; lia.
Qed.

Lemma change_activity_advances (w w' : World) :
  change w w' -> timely w ->
  activity_advances (conversations w) (conversations w').
Proof.
  intros Hc Ht. destruct Hc; simpl.
  - intros i c Hc. exists c. repeat split; [|lia].
    rewrite nth_error_app1; [exact Hc|]. apply nth_error_Some. congruence.
  - now apply activity_advances_patch.
  - now apply activity_advances_patch.
  - apply activity_advances_refl.
Qed.

Lemma changes_activity_advances (w w' : World) :
  changes w w' -> timely w ->
  activity_advances (conversations w) (conversations w').
Proof.
  induction 1 as [w w' H|w|w1 w2 w3 H12 IH12 H23 IH23]; intros Ht.
  - now apply change_activity_advances.
  - apply activity_advances_refl.
  - eapply activity_advances_trans; [now apply IH12|].
    apply IH23. now apply (changes_timely w1).
Qed.

(** X10: with a clock that never goes back, no sequence of defined
    operations ever moves a conversation's [lastMessageAt] backwards: each
    conversation stays at its row with the same id and a last activity that
    is not earlier. *)
Theorem lastMessageAt_never_decreases
    (w w' : World) (i : nat) (c : Conversation) :
  reaches w w' ->
  timely w ->
  nth_error (conversations w) i = Some c ->
  exists c',
    nth_error (conversations w') i = Some c' /\
    conv_id c' = conv_id c /\
    (conv_lastMessageAt c <= conv_lastMessageAt c')%Z.
Proof.
  intros Hr Ht Hc. apply reaches_changes in Hr.
  exact (changes_activity_advances w w' Hr Ht i c Hc).
Qed.

Lemma opened_world_timely : timely Session.opened_world.
Proof.
  apply (changes_timely Session.w0).
  - apply perform_changes.
  - apply empty_world_timely, wall_clock_monotone.
Qed.

Lemma opened_reaches_essay : reaches Session.opened_world Session.essay_world.
Proof.
  unfold Session.essay_world, Session.essay_calls, Session.opened_world,
    perform_all.
  cbn [fold_left]. apply reaches_next, reaches_next, reaches_here.
Qed.

Lemma lastMessageAt_never_decreases_witness :
  exists c',
    nth_error (conversations Session.essay_world) 0 = Some c' /\
    conv_id c' = 1 /\
    (Session.wall_clock 0 <= conv_lastMessageAt c')%Z.
Proof.
  apply (lastMessageAt_never_decreases Session.opened_world Session.essay_world
           0 Session.essay_help opened_reaches_essay opened_world_timely).
  reflexivity.
Defined.

(** X11: Submit followed by its Generate job. When the owner sends
    [content] and the job then runs, the request sent to the provider is
    the system instruction, the earlier listing and, last, the message just
    sent; afterwards the owner's listing is the earlier listing followed by
    the user message and then one assistant message, which carries the
    provider's text whenever its first choice has a non-empty one. *)
Theorem submit_then_generate
    (ctx : Ctx) (openai : Provider) (u cid : Id) (c : Conversation)
    (content : string) (w : World) :
  identity ctx = Some u ->
  lookup_conversation cid (conversations w) = Some c ->
  conv_userId c = u ->
  let w1 := world_after (sendMessage ctx cid content w) in
  let w2 := world_after (generateAIResponse openai cid w1) in
  exists l mu ma request,
    getMessages ctx cid w = (Ok l, w) /\
    getMessages ctx cid w2 = (Ok (l ++ [mu; ma]), w2) /\
    msg_role mu = "user"%string /\ msg_content mu = content /\
    msg_role ma = "assistant"%string /\ msg_userId ma = u /\
    outbox w2 = outbox w ++ [request] /\
    req_messages request =
      system_message :: map to_chat_message l ++ [mkChatMessage "user" content] /\
    (forall choices text,
       openai request = Completed choices ->
       first_content choices = Some text -> text <> EmptyString ->
       msg_content ma = text).
Proof.
  intros Hu Hc Ho. cbv zeta. unfold world_after.
  pose proof (not_owned_false _ _ _ _ Hc Ho) as Hown.
  rewrite sendMessage_run, Hu, Hown. cbn [snd].
  set (w1 := sent cid u content w).
  pose proof (lookup_sent cid u content c w Hc) as Hc1. fold w1 in Hc1.
  rewrite generateAIResponse_run, saveAIMessage_run.
  set (wq := with_outbox _ w1).
  change (conversations wq) with (conversations w1). rewrite Hc1. cbn [snd].
  exists (history cid w). do 3 eexists.
  split; [|split; [|split; [|split; [|split; [|split; [|split; [|split]]]]]]].
  - rewrite getMessages_run, Hu, Hown. reflexivity.
  - rewrite getMessages_run, Hu. cbn [conversations saved].
    rewrite not_owned_patch. change (conversations wq) with (conversations w1).
    rewrite (not_owned_false _ _ _ _ Hc1) by exact Ho.
    match goal with
    | |- (Ok (filter _ (messages ?W)), _) = _ => fold (history cid W)
    end.
    rewrite history_saved, Nat.eqb_refl.
    change (history cid wq) with (history cid w1).
    unfold w1 at 1. rewrite history_sent, Nat.eqb_refl, <- app_assoc.
    reflexivity.
  - reflexivity.
  - reflexivity.
  - reflexivity.
  - simpl. exact Ho.
  - reflexivity.
  - unfold w1. rewrite history_sent, Nat.eqb_refl.
    unfold completion_request, openaiMessages. cbn [req_messages].
    rewrite map_app. reflexivity.
  - intros choices text Hp Hf Hne. cbn [msg_content].
    unfold persisted_text. change (history cid wq) with (history cid w1).
    rewrite Hp, Hf. destruct text; [contradiction | reflexivity].
Qed.

Lemma submit_then_generate_witness :
  let w1 := world_after (sendMessage Session.alice 1 "hello" Session.opened_world) in
  let w2 := world_after (generateAIResponse Session.tutor 1 w1) in
  exists l mu ma request,
    getMessages Session.alice 1 Session.opened_world
      = (Ok l, Session.opened_world) /\
    getMessages Session.alice 1 w2 = (Ok (l ++ [mu; ma]), w2) /\
    msg_role mu = "user"%string /\ msg_content mu = "hello"%string /\
    msg_role ma = "assistant"%string /\ msg_userId ma = 7 /\
    outbox w2 = outbox Session.opened_world ++ [request] /\
    req_messages request =
      system_message :: map to_chat_message l ++ [mkChatMessage "user" "hello"] /\
    (forall choices text,
       Session.tutor request = Completed choices ->
       first_content choices = Some text -> text <> EmptyString ->
       msg_content ma = text).
Proof.
  apply (submit_then_generate Session.alice Session.tutor 7 1 Session.essay_help
           "hello" Session.opened_world); reflexivity.
Defined.

(** X12: a completion without usable text (no choice, a choice without
    message, a null or empty content) is treated as a failure: the run
    still returns normally and persists one assistant message, the apology
    with the generic wording. *)
Theorem empty_completion_gets_generic_apology
    (openai : Provider) (cid : Id) (c : Conversation) (choices : list Choice)
    (w : World) :
  lookup_conversation cid (conversations w) = Some c ->
  openai (completion_request (history cid w)) = Completed choices ->
  truthy (first_content choices) = false ->
  let r := generateAIResponse openai cid w in
  value r = Ok tt /\
  exists m,
    messages (world_after r) = messages w ++ [m] /\
    msg_role m = "assistant"%string /\
    msg_content m = (apology ++ generic_advice)%string.
Proof.
  intros Hc Ho Ht. cbv zeta. unfold value, world_after.
  rewrite generateAIResponse_run, saveAIMessage_run. simpl. rewrite Hc. simpl.
  split; [reflexivity|]. eexists. split; [reflexivity|]. split; [reflexivity|].
  simpl. now apply (empty_response_wording openai cid choices).
Qed.

Lemma empty_completion_gets_generic_apology_witness :
  let r := generateAIResponse (fun _ => Completed [mkChoice (Some (Some EmptyString))])
             1 Session.asked_world in
  value r = Ok tt /\
  exists m,
    messages (world_after r) = messages Session.asked_world ++ [m] /\
    msg_role m = "assistant"%string /\
    msg_content m = (apology ++ generic_advice)%string.
Proof.
  apply (empty_completion_gets_generic_apology
           (fun _ => Completed [mkChoice (Some (Some EmptyString))]) 1
           (set_lastMessageAt (Session.wall_clock 2) Session.essay_help)
           [mkChoice (Some (Some EmptyString))] Session.asked_world);
    reflexivity.
Defined.

(** ** The chat view against the backend *)

Lemma truthy_nonempty (s : string) :
  truthy (Some s) = true <-> s <> EmptyString.
Proof. destruct s; simpl; split; congruence. Qed.

Lemma setIsLoading_round (ui : View.Ui) :
  View.isLoading ui = false ->
  View.setIsLoading false (View.setIsLoading true ui) = ui.
Proof. destruct ui as [s m l t]. simpl. intros ->. reflexivity. Qed.

(** X13: [handleSendMessage] does nothing at all when the trimmed input
    is empty, when no conversation is selected, or while an earlier send is
    still loading: no mutation is called and the view state stays as it
    is. *)
Theorem handleSendMessage_guard
    (trim : string -> string) (ctx : Ctx) (ui : View.Ui) (w : World) :
  (trim (View.message ui) = EmptyString \/
   View.selectedConversationId ui = None \/
   View.isLoading ui = true) ->
  View.handleSendMessage trim ctx ui w = (ui, w).
Proof.
  intros H. unfold View.handleSendMessage.
  destruct (View.selectedConversationId ui) as [cid|]; [|reflexivity].
  destruct H as [-> | [H | ->]]; [reflexivity | discriminate |].
  now rewrite orb_true_r.
Qed.

Lemma handleSendMessage_guard_witness :
  View.handleSendMessage (fun s => s) Session.alice
    (View.mkUi (Some 1) "hello" true false) Session.opened_world
  = (View.mkUi (Some 1) "hello" true false, Session.opened_world).
Proof.
  apply (handleSendMessage_guard (fun s => s) Session.alice
           (View.mkUi (Some 1) "hello" true false) Session.opened_world).
  right. right. reflexivity.
Defined.

(** X14: when a conversation is selected, nothing is loading and the
    trimmed input is not empty, [handleSendMessage] never throws and ends
    with [isLoading] false and the selection untouched. If the caller owns
    the conversation, exactly the trimmed input is stored as one new user
    message, one job is enqueued and the input field is cleared. If the
    mutation throws, the error is swallowed: view state and world are
    exactly as before, the input included. *)
Theorem handleSendMessage_submits
    (trim : string -> string) (ctx : Ctx) (cid : Id) (ui : View.Ui) (w : World) :
  View.selectedConversationId ui = Some cid ->
  View.isLoading ui = false ->
  trim (View.message ui) <> EmptyString ->
  let r := View.handleSendMessage trim ctx ui w in
  View.isLoading (fst r) = false /\
  View.selectedConversationId (fst r) = Some cid /\
  (forall u c,
     identity ctx = Some u ->
     lookup_conversation cid (conversations w) = Some c ->
     conv_userId c = u ->
     View.message (fst r) = EmptyString /\
     scheduled (snd r) = scheduled w ++ [mkJob 0 cid] /\
     exists m,
       messages (snd r) = messages w ++ [m] /\
       msg_conversationId m = cid /\ msg_role m = "user"%string /\
       msg_content m = trim (View.message ui) /\
       msg_content m <> EmptyString) /\
  (forall e,
     value (sendMessage ctx cid (trim (View.message ui)) w) = Throw e ->
     r = (ui, w)).
Proof.
  intros Hsel Hload Htrim. cbv zeta. unfold View.handleSendMessage.
  rewrite Hsel, Hload. apply truthy_nonempty in Htrim as Ht. rewrite Ht.
  simpl negb. cbn [orb]. unfold value. rewrite sendMessage_run.
  destruct (identity ctx) as [u|].
  - destruct (not_owned (lookup_conversation cid (conversations w)) u) eqn:Hown;
      simpl.
    + split; [reflexivity|]. split; [exact Hsel|]. split.
      * intros u' c Hu Hc Ho. injection Hu as <-.
        rewrite (not_owned_false _ _ _ _ Hc Ho) in Hown. discriminate.
      * intros e _. now rewrite setIsLoading_round.
    + split; [reflexivity|]. split; [exact Hsel|]. split.
      * intros u' c Hu Hc Ho. injection Hu as <-.
        split; [reflexivity|]. split; [reflexivity|].
        eexists. split; [reflexivity|]. repeat split. exact Htrim.
      * intros e He. discriminate.
  - simpl. split; [reflexivity|]. split; [exact Hsel|]. split.
    + intros u c Hu. discriminate.
    + intros e _. now rewrite setIsLoading_round.
Qed.

Lemma handleSendMessage_submits_witness :
  let ui := View.mkUi (Some 1) "hello" false false in
  let r := View.handleSendMessage (fun s => s) Session.alice ui
             Session.opened_world in
  View.isLoading (fst r) = false /\
  View.selectedConversationId (fst r) = Some 1 /\
  (forall u c,
     identity Session.alice = Some u ->
     lookup_conversation 1 (conversations Session.opened_world) = Some c ->
     conv_userId c = u ->
     View.message (fst r) = EmptyString /\
     scheduled (snd r) = scheduled Session.opened_world ++ [mkJob 0 1] /\
     exists m,
       messages (snd r) = messages Session.opened_world ++ [m] /\
       msg_conversationId m = 1 /\ msg_role m = "user"%string /\
       msg_content m = "hello"%string /\
       msg_content m <> EmptyString) /\
  (forall e,
     value (sendMessage Session.alice 1 "hello" Session.opened_world) = Throw e ->
     r = (ui, Session.opened_world)).
Proof.
  apply (handleSendMessage_submits (fun s => s) Session.alice 1
           (View.mkUi (Some 1) "hello" false false) Session.opened_world);
    [reflexivity | reflexivity | discriminate].
Defined.

Lemma typingEffect_last (l : list Message) (m : Message) (now : Z) (ui : View.Ui) :
  View.typingEffect (l ++ [m]) now ui
  = View.setIsTyping (View.isRecentUserMessage m now) ui.
Proof.
  unfold View.typingEffect. rewrite length_app. simpl.
  replace (List.length l + 1 - 1) with (List.length l) by lia.
  replace (0 <? List.length l + 1) with true
    by (symmetry; apply Nat.ltb_lt; lia).
  rewrite nth_error_app2 by lia. rewrite Nat.sub_diag. reflexivity.
Qed.

(** X15: once a run of [generateAIResponse] for an existing conversation
    is over, the typing indicator computed from any successful listing of
    that conversation is off, whatever the browser's clock says. *)
Theorem typing_indicator_off_after_reply
    (ctx : Ctx) (openai : Provider) (cid : Id) (c : Conversation)
    (l : list Message) (now : Z) (ui : View.Ui) (w : World) :
  lookup_conversation cid (conversations w) = Some c ->
  value (getMessages ctx cid (world_after (generateAIResponse openai cid w)))
    = Ok l ->
  View.isTyping (View.typingEffect l now ui) = false.
Proof.
  intros Hc. unfold value, world_after.
  rewrite generateAIResponse_run, saveAIMessage_run. simpl lookup_conversation.
  rewrite Hc. cbn [snd]. rewrite getMessages_run.
  destruct (identity ctx) as [u|]; [|discriminate].
  destruct (not_owned _ u); [discriminate|]. cbn [fst].
  match goal with
  | |- Ok (filter _ (messages ?W)) = _ -> _ => fold (history cid W)
  end.
  rewrite history_saved, Nat.eqb_refl. intros H. injection H as <-.
  rewrite typingEffect_last. reflexivity.
Qed.

Lemma typing_indicator_off_after_reply_witness :
  View.isTyping
    (View.typingEffect (history 1 Session.essay_world) 1700000000005
       (View.mkUi (Some 1) EmptyString false true)) = false.
Proof.
  apply (typing_indicator_off_after_reply Session.alice Session.tutor 1
           (set_lastMessageAt (Session.wall_clock 2) Session.essay_help)
           (history 1 Session.essay_world) 1700000000005
           (View.mkUi (Some 1) EmptyString false true) Session.asked_world).
  - reflexivity.
  - vm_compute. reflexivity.
Defined.

(** X16: right after a successful [sendMessage] the typing indicator
    computed from the owner's listing is on exactly while the browser's
    clock is less than 30000 ms past the time the message was stamped
    with. *)
Theorem typing_indicator_after_send
    (ctx : Ctx) (u cid : Id) (c : Conversation) (content : string)
    (l : list Message) (now : Z) (ui : View.Ui) (w : World) :
  identity ctx = Some u ->
  lookup_conversation cid (conversations w) = Some c ->
  conv_userId c = u ->
  value (getMessages ctx cid (world_after (sendMessage ctx cid content w)))
    = Ok l ->
  View.isTyping (View.typingEffect l now ui)
  = (now - clock w (reads w) <? 30000)%Z.
Proof.
  intros Hu Hc Ho. unfold value, world_after.
  rewrite sendMessage_run, Hu, (not_owned_false _ _ _ _ Hc Ho). cbn [snd].
  rewrite getMessages_run, Hu.
  rewrite (not_owned_false cid u _ _ (lookup_sent cid u content c w Hc)) by exact Ho.
  cbn [fst]. fold (history cid (sent cid u content w)).
  rewrite history_sent, Nat.eqb_refl. intros H. injection H as <-.
  rewrite typingEffect_last. reflexivity.
Qed.

Lemma typing_indicator_after_send_witness :
  View.isTyping
    (View.typingEffect (history 1 Session.asked_world) 1700000040000
       (View.mkUi (Some 1) EmptyString false true))
  = (1700000040000 - clock Session.opened_world (reads Session.opened_world)
     <? 30000)%Z.
Proof.
  apply (typing_indicator_after_send Session.alice 7 1 Session.essay_help
           "How do I write a thesis statement?"
           (history 1 Session.asked_world) 1700000040000
           (View.mkUi (Some 1) EmptyString false true) Session.opened_world);
    reflexivity.
Defined.

(** X17: the auto-select effect never overrides a selection and selects
    nothing when the listing is empty; with no selection it picks the head
    of the listing, which for the listing [getConversations] returns is the
    caller's most recently created conversation. *)
Theorem autoSelect_picks_newest
    (ctx : Ctx) (u : Id) (l : list Conversation) (ui : View.Ui) (w : World) :
  stamps_ok w ->
  identity ctx = Some u ->
  value (getConversations ctx w) = Ok l ->
  (View.selectedConversationId ui <> None -> View.autoSelect l ui = ui) /\
  (l = [] -> View.autoSelect l ui = ui) /\
  (View.selectedConversationId ui = None -> l <> [] ->
   exists c0,
     In c0 (conversations w) /\ conv_userId c0 = u /\
     View.autoSelect l ui
       = View.setSelectedConversationId (Some (conv_id c0)) ui /\
     forall c, In c (conversations w) -> conv_userId c = u ->
               conv_creationTime c <= conv_creationTime c0).
Proof.
  intros [[Hsorted _] _] Hu Hl. unfold value in Hl.
  rewrite getConversations_run, Hu in Hl. simpl in Hl. injection Hl as Hl.
  split; [|split].
  - intros Hsel. unfold View.autoSelect.
    destruct (View.selectedConversationId ui); [reflexivity | contradiction].
  - intros ->. unfold View.autoSelect.
    destruct (View.selectedConversationId ui); reflexivity.
  - intros Hsel Hne. destruct l as [|c0 rest]; [contradiction|].
    assert (Hmem : forall c, In c (c0 :: rest) <->
                             In c (conversations w) /\ conv_userId c = u).
    { intros c. rewrite <- Hl, <- in_rev, filter_In, Nat.eqb_eq. reflexivity. }
    assert (Hs : StronglySorted
                   (fun a b => conv_creationTime b < conv_creationTime a)
                   (c0 :: rest)).
    { rewrite <- Hl.
      apply (sorted_rev (fun a b => conv_creationTime a < conv_creationTime b)).
      now apply sorted_filter_keys. }
    exists c0. destruct (proj1 (Hmem c0) (or_introl eq_refl)) as [Hin Hown].
    split; [exact Hin|]. split; [exact Hown|]. split.
    + unfold View.autoSelect. rewrite Hsel. reflexivity.
    + intros c Hc Hcu. destruct (proj2 (Hmem c) (conj Hc Hcu)) as [<- | Hrest];
        [lia|].
      inversion Hs as [|? ? _ Hall]; subst. rewrite Forall_forall in Hall.
      specialize (Hall c Hrest). lia.
Qed.

Lemma two_threads_stamps_ok : stamps_ok Session.two_threads_world.
Proof.
  apply (changes_stamps_ok Session.w0).
  - apply reaches_changes. apply (reaches_perform_all Session.two_threads_calls).
  - apply empty_world_ok.
Qed.

Lemma autoSelect_picks_newest_witness :
  let l := rev (filter (fun c => conv_userId c =? 7)
                       (conversations Session.two_threads_world)) in
  let ui := View.mkUi None EmptyString false false in
  (View.selectedConversationId ui <> None -> View.autoSelect l ui = ui) /\
  (l = [] -> View.autoSelect l ui = ui) /\
  (View.selectedConversationId ui = None -> l <> [] ->
   exists c0,
     In c0 (conversations Session.two_threads_world) /\ conv_userId c0 = 7 /\
     View.autoSelect l ui
       = View.setSelectedConversationId (Some (conv_id c0)) ui /\
     forall c, In c (conversations Session.two_threads_world) ->
               conv_userId c = 7 ->
               conv_creationTime c <= conv_creationTime c0).
Proof.
  apply (autoSelect_picks_newest Session.alice 7 _ _ Session.two_threads_world
           two_threads_stamps_ok eq_refl).
  reflexivity.
Defined.

(** X18: [handleNewConversation] by an authenticated user creates a
    conversation titled "Study Session - " followed by the locale date and
    selects it, leaving the input and the loading flag alone; that
    conversation then heads the user's listing. Without a user the
    mutation's [Unauthenticated] comes out of the handler and neither view
    state nor world change. *)
Theorem handleNewConversation_selects_new
    (localeDate : string) (ctx : Ctx) (ui : View.Ui) (w : World) :
  ids_ok w ->
  (forall u, identity ctx = Some u ->
     exists id c w',
       View.handleNewConversation localeDate ctx ui w
         = (Ok tt, View.setSelectedConversationId (Some id) ui, w') /\
       lookup_conversation id (conversations w) = None /\
       lookup_conversation id (conversations w') = Some c /\
       conv_userId c = u /\
       conv_title c = ("Study Session - " ++ localeDate)%string /\
       exists rest, getConversations ctx w' = (Ok (c :: rest), w')) /\
  (identity ctx = None ->
     View.handleNewConversation localeDate ctx ui w
       = (Throw Unauthenticated, ui, w)).
Proof.
  intros Hids. unfold View.handleNewConversation.
  rewrite createConversation_run. split.
  - intros u Hu. rewrite Hu.
    pose proof (lookup_fresh _ _ Hids) as Hfresh.
    exists (serial w). do 2 eexists. split; [reflexivity|].
    split; [exact Hfresh|]. split.
    { simpl. rewrite lookup_app_missing by exact Hfresh.
      unfold lookup_conversation. simpl. rewrite Nat.eqb_refl. reflexivity. }
    split; [reflexivity|]. split; [reflexivity|].
    eexists. rewrite getConversations_run, Hu. simpl.
    rewrite filter_app, rev_app_distr. simpl. rewrite Nat.eqb_refl. reflexivity.
  - intros ->. reflexivity.
Qed.

Lemma handleNewConversation_selects_new_witness :
  exists id c w',
    View.handleNewConversation "11/2/2026" Session.alice
      (View.mkUi (Some 1) "draft" false false) Session.essay_world
    = (Ok tt,
       View.setSelectedConversationId (Some id)
         (View.mkUi (Some 1) "draft" false false), w') /\
    lookup_conversation id (conversations Session.essay_world) = None /\
    lookup_conversation id (conversations w') = Some c /\
    conv_userId c = 7 /\
    conv_title c = "Study Session - 11/2/2026"%string /\
    exists rest, getConversations Session.alice w' = (Ok (c :: rest), w').
Proof.
  apply (handleNewConversation_selects_new "11/2/2026" Session.alice
           (View.mkUi (Some 1) "draft" false false) Session.essay_world
           essay_world_ids_ok).
  reflexivity.
Defined.

(** ** Listings and access over time *)

Lemma history_extends (cid : Id) (w w' : World) :
  extends (messages w) (messages w') -> extends (history cid w) (history cid w').
Proof.
  intros [tail H]. unfold history. rewrite H, filter_app. eexists. reflexivity.
Qed.

(** X19: whatever defined operations run in between, a later listing
    of a conversation is the earlier listing with messages appended:
    messages already listed keep their content and their place. *)
Theorem listings_only_grow (cid : Id) (l : list Message) (w w' : World) :
  reaches w w' ->
  value (getMessagesForAI cid w) = Ok l ->
  exists tail, value (getMessagesForAI cid w') = Ok (l ++ tail).
Proof.
  intros Hr Hl. unfold value in *. rewrite getMessagesForAI_run in *.
  simpl in *. injection Hl as <-.
  apply reaches_changes, changes_messages_extend in Hr.
  destruct (history_extends cid w w' Hr) as [tail ->]. now exists tail.
Qed.

Lemma listings_only_grow_witness :
  exists tail,
    value (getMessagesForAI 1 Session.essay_world)
    = Ok (history 1 Session.opened_world ++ tail).
Proof.
  apply (listings_only_grow 1 (history 1 Session.opened_world)
           Session.opened_world Session.essay_world opened_reaches_essay).
  reflexivity.
Defined.

Lemma change_lookup_stable (w w' : World) (cid : Id) (c : Conversation) :
  change w w' ->
  lookup_conversation cid (conversations w) = Some c ->
  exists c', lookup_conversation cid (conversations w') = Some c' /\
             conv_userId c' = conv_userId c.
Proof.
  intros Hc Hl. destruct Hc; simpl.
  - exists c. split; [now apply lookup_app_found | reflexivity].
  - now apply lookup_patch_found.
  - now apply lookup_patch_found.
  - now exists c.
Qed.

Lemma changes_lookup_stable (w w' : World) (cid : Id) :
  changes w w' ->
  forall c, lookup_conversation cid (conversations w) = Some c ->
  exists c', lookup_conversation cid (conversations w') = Some c' /\
             conv_userId c' = conv_userId c.
Proof.
  induction 1 as [w w' H|w|w1 w2 w3 _ IH12 _ IH23]; intros c Hc.
  - now apply (change_lookup_stable w).
  - now exists c.
  - destruct (IH12 c Hc) as [c2 [Hc2 Hu2]].
    destruct (IH23 c2 Hc2) as [c3 [Hc3 Hu3]].
    exists c3. split; [exact Hc3 | congruence].
Qed.

(** X20: access to a conversation is settled at its creation. Whatever
    defined operations run afterwards, the conversation can still be looked
    up with the same owner; the owner's [getMessages] keeps succeeding and
    every other user's keeps failing with [NotFound], as does their
    [sendMessage], which then writes nothing. *)
Theorem access_is_stable
    (ctx : Ctx) (u cid : Id) (c : Conversation) (content : string)
    (w w' : World) :
  reaches w w' ->
  lookup_conversation cid (conversations w) = Some c ->
  identity ctx = Some u ->
  (u = conv_userId c ->
   exists l, getMessages ctx cid w' = (Ok l, w')) /\
  (u <> conv_userId c ->
   getMessages ctx cid w' = (Throw NotFound, w') /\
   sendMessage ctx cid content w' = (Throw NotFound, w')).
Proof.
  intros Hr Hc Hu. apply reaches_changes in Hr.
  destruct (changes_lookup_stable w w' cid Hr c Hc) as [c' [Hc' Hu']].
  rewrite getMessages_run, sendMessage_run, Hu, Hc'. simpl. rewrite Hu'. split.
  - intros ->. rewrite Nat.eqb_refl. simpl. eexists. reflexivity.
  - intros Hne. assert (E : (conv_userId c =? u) = false)
      by (apply Nat.eqb_neq; congruence).
    rewrite E. simpl. split; reflexivity.
Qed.

Lemma access_is_stable_witness :
  (8 = conv_userId Session.essay_help ->
   exists l, getMessages Session.bob 1 Session.essay_world
             = (Ok l, Session.essay_world)) /\
  (8 <> conv_userId Session.essay_help ->
   getMessages Session.bob 1 Session.essay_world
     = (Throw NotFound, Session.essay_world) /\
   sendMessage Session.bob 1 "mine now" Session.essay_world
     = (Throw NotFound, Session.essay_world)).
Proof.
  apply (access_is_stable Session.bob 8 1 Session.essay_help "mine now"
           Session.opened_world Session.essay_world opened_reaches_essay);
    reflexivity.
Defined.
